(** * fly-psyche metrics: throttled, gated gauge publication

    A shallow embedding of the Go package [metrics] (the throttle
    [OncePerDur], the delta gate [OncePerDelta], the registry [Metrics],
    [Gauge] and the HTTP / listener middleware) together with the
    properties of its specification.

    Conventions of the embedding
    - Go's [int64] is a [Z] with the two's-complement wrap-around written
      out ([wrap64]).
    - [time.Time] is a [Z]: nanoseconds counted from the zero [Time];
      [time.Duration] is an [int64] number of nanoseconds.
    - Every mutex-protected critical section is one atomic state
      transformer; the clock value read inside it is an argument [now].
    - A pointer to a gauge is its index in the registry's append-only
      slice [gauges]; an edge ([psyche.Interface]) is identified by a
      number.
    - A Go panic is the [Panic] result; where deferred calls still run,
      the [Panicked] outcome carries the state they run on. *)

From Stdlib Require Import ZArith Lia List Bool Ascii String.
From stdpp Require Import base option list gmap strings pretty.

Local Open Scope Z_scope.

(** ** 64-bit signed integers *)

Module Int64.

Definition min_int64 : Z := - 2 ^ 63.
Definition max_int64 : Z := 2 ^ 63 - 1.

Definition in_range (z : Z) : Prop := min_int64 <= z <= max_int64.

(** The value an [int64] holds after an operation whose exact result
    is [z]. *)
Definition wrap64 (z : Z) : Z := (z + 2 ^ 63) mod 2 ^ 64 - 2 ^ 63.

Definition add64 (a b : Z) : Z := wrap64 (a + b).
Definition sub64 (a b : Z) : Z := wrap64 (a - b).
Definition neg64 (a : Z) : Z := wrap64 (- a).

(** Clamping to the [int64] range, as [Time.Sub] does for a [Duration]. *)
Definition saturate64 (z : Z) : Z := Z.max min_int64 (Z.min max_int64 z).

End Int64.

Import Int64.

(** ** Results of code that may panic *)

Inductive Result (A : Type) : Type :=
| Ok (a : A)
| Panic.
Arguments Ok {A} a.
Arguments Panic {A}.

(** The outcome of a request handler: it returns, or it panics; either
    way it leaves a state behind, on which deferred calls run. *)
Inductive Outcome (S : Type) : Type :=
| Returned (s : S)
| Panicked (s : S).
Arguments Returned {S} s.
Arguments Panicked {S} s.

Definition state_of {S} (o : Outcome S) : S :=
  match o with Returned s => s | Panicked s => s end.

Definition has_panicked {S} (o : Outcome S) : bool :=
  match o with Returned _ => false | Panicked _ => true end.

(** ** Time *)

Module Time.

Definition Add (t d : Z) : Z := t + d.
Definition Sub (t u : Z) : Z := saturate64 (t - u).
Definition Before (t u : Z) : bool := t <? u.

(** A [*time.Timer] made by [time.AfterFunc]: [when] is the instant it is
    set to fire at, [armed] whether it still will. *)
Record Timer := MkTimer { when : Z; armed : bool }.

(** The instant a timer of delay [d] set at [now] fires at: a delay of
    zero or less means at once. *)
Definition when_after (now d : Z) : Z := if d <=? 0 then now else now + d.

(** [time.AfterFunc(d, f)] called at [now]. *)
Definition AfterFunc (now d : Z) : Timer := {| when := when_after now d; armed := true |}.

(** [t.Reset(d)] called at [now]: the function is scheduled (again). *)
Definition Reset (now d : Z) (t : Timer) : Timer :=
  {| when := when_after now d; armed := true |}.

(** [t.Stop()]: a timer that has fired already is left as it is. *)
Definition Stop (t : Timer) : Timer := {| when := when t; armed := false |}.

(** The timer once it has fired: it will not fire again unless reset. *)
Definition Expire (t : Timer) : Timer := {| when := when t; armed := false |}.

End Time.

(** ** [OncePerDelta]: the delta gate *)

Module OncePerDelta.

Record t := Build { delta : Z; lastVal : Z }.

Definition NewOncePerDelta (delta : Z) : t :=
  {| delta := delta; lastVal := 0 |}.

Definition set_lastVal (v : Z) (opd : t) : t :=
  {| delta := delta opd; lastVal := v |}.

(** The local [diff] of [Do] once "the absolute difference" is taken:
    [diff := val - lastVal; if diff < 0 { diff = -diff }], on [int64]. *)
Definition absdiff (val last : Z) : Z :=
  let diff := sub64 val last in
  if diff <? 0 then neg64 diff else diff.

(** [Do] does not take its early [return]. *)
Definition allows (val : Z) (opd : t) : bool :=
  negb (absdiff val (lastVal opd) <? delta opd).

Section InState.
(** The gate lives inside a larger state [St], on which the callback
    [fn] acts. *)
Context {St : Type}.
Variable get : St -> t.
Variable set : t -> St -> St.

Definition Do (val : Z) (fn : St -> St) (s : St) : St :=
  let opd := get s in
  let diff := sub64 val (lastVal opd) in
  let diff := if diff <? 0 then neg64 diff else diff in
  if diff <? delta opd then s
  else fn (set (set_lastVal val opd) s).

Definition Reset (val : Z) (s : St) : St :=
  set (set_lastVal val (get s)) s.

End InState.

(** A gate on its own, next to a log of the callback invocations: each
    entry is the [lastVal] the callback found when it started. *)
Definition Solo : Type := t * list Z.
Definition solo_get (s : Solo) : t := fst s.
Definition solo_set (o : t) (s : Solo) : Solo := (o, snd s).
Definition solo_cb (s : Solo) : Solo := (fst s, lastVal (fst s) :: snd s).

Definition DoSolo (val : Z) (s : Solo) : Solo :=
  Do solo_get solo_set val solo_cb s.
Definition ResetSolo (val : Z) (s : Solo) : Solo :=
  Reset solo_get solo_set val s.

End OncePerDelta.

(** ** [OncePerDur]: the coalescing throttle *)

Module OncePerDur.

Section Callbacks.
(** [F] stands for the function values handed to [Do]. *)
Context {F : Type}.

Record t := Build {
  dur : Z;
  last : Z;
  timer : option Time.Timer;
  pending : option F;
  isRunning : bool
}.

Definition NewOncePerDur (dur : Z) : t :=
  {| dur := dur; last := 0; timer := None; pending := None; isRunning := false |}.

Definition set_last (x : Z) (op : t) : t :=
  {| dur := dur op; last := x; timer := timer op; pending := pending op;
     isRunning := isRunning op |}.
Definition set_timer (x : option Time.Timer) (op : t) : t :=
  {| dur := dur op; last := last op; timer := x; pending := pending op;
     isRunning := isRunning op |}.
Definition set_pending (x : option F) (op : t) : t :=
  {| dur := dur op; last := last op; timer := timer op; pending := x;
     isRunning := isRunning op |}.
Definition set_isRunning (x : bool) (op : t) : t :=
  {| dur := dur op; last := last op; timer := timer op; pending := pending op;
     isRunning := x |}.

Definition not_nil (x : option F) : bool :=
  match x with Some _ => true | None => false end.

(** [Do]: the new state and, when [Do] ends in [go op.runner(f)], the
    callback the new goroutine starts with. *)
Definition Do (now : Z) (f : F) (op : t) : t * option F :=
  if not_nil (pending op) || isRunning op then
    (set_pending (Some f) op, None)
  else
    let next := Time.Add (last op) (dur op) in
    if Time.Before now next then
      let op := set_pending (Some f) op in
      let op :=
        match timer op with
        | None => set_timer (Some (Time.AfterFunc now (Time.Sub now next))) op
        | Some tm => set_timer (Some (Time.Reset now (dur op) tm)) op
        end in
      (op, None)
    else
      (set_isRunning true (set_last now op), Some f).

(** The state in which [Do] defers [f]: nothing pending, nothing
    running, and [now] before [last + dur]. *)
Definition deferring (now : Z) (op : t) : Prop :=
  pending op = None /\ isRunning op = false /\ now < last op + dur op.

Definition Reset (now : Z) (op : t) : t :=
  let op := match timer op with
            | Some tm => set_timer (Some (Time.Stop tm)) op
            | None => op
            end in
  set_last now (set_pending None op).

(** The critical section of [handleTimer]; [Some f] when it goes on to
    [op.runner(f)]. *)
Definition handleTimer (now : Z) (op : t) : t * option F :=
  match pending op with
  | None => (op, None)
  | Some f => (set_isRunning true (set_pending None (set_last now op)), Some f)
  end.

(** The critical section of the loop of [runner], entered each time a
    callback has returned; [Some f] when the loop calls [f] next, [None]
    when [runner] returns. *)
Definition runner_loop (now : Z) (op : t) : t * option F :=
  match pending op with
  | None => (set_isRunning false op, None)
  | Some f => (set_pending None (set_last now op), Some f)
  end.

(** *** The throttle and the goroutines around it

    [handlers] counts the [handleTimer] goroutines a fired timer has
    started and that have not taken the mutex yet; [running] holds, for
    each goroutine inside [runner], the callback it is calling. [started]
    and [dropped] are history: every callback ever handed to a runner,
    and every callback that was overwritten in (or cleared from) the
    pending slot. *)
Record Sys := MkSys {
  op : t;
  handlers : nat;
  running : list F;
  started : list F;
  dropped : list F
}.

Definition init (d : Z) : Sys :=
  {| op := NewOncePerDur d; handlers := 0%nat; running := []; started := []; dropped := [] |}.

Inductive Event :=
| EvDo (now : Z) (f : F)      (* a call [Do(f)] *)
| EvReset (now : Z)           (* a call [Reset()] *)
| EvFire (now : Z)            (* the armed timer fires *)
| EvHandle (now : Z)          (* a started [handleTimer] takes the mutex *)
| EvDone (now : Z) (f : F).   (* a runner's call of [f] returns *)

Definition slot (x : option F) : list F :=
  match x with Some f => [f] | None => [] end.

Context `{EqDecision F}.

Fixpoint remove_one (f : F) (l : list F) : list F :=
  match l with
  | [] => []
  | g :: l' => if decide (f = g) then l' else g :: remove_one f l'
  end.

Definition is_in (f : F) (l : list F) : bool := bool_decide (f ∈ l).

Definition step (e : Event) (s : Sys) : option Sys :=
  match e with
  | EvDo now f =>
      let '(op', go) := Do now f (op s) in
      Some {| op := op'; handlers := handlers s;
              running := slot go ++ running s;
              started := slot go ++ started s;
              dropped := slot (pending (op s)) ++ dropped s |}
  | EvReset now =>
      Some {| op := Reset now (op s); handlers := handlers s;
              running := running s; started := started s;
              dropped := slot (pending (op s)) ++ dropped s |}
  | EvFire now =>
      match timer (op s) with
      | Some tm =>
          if Time.armed tm && (Time.when tm <=? now) then
            Some {| op := set_timer (Some (Time.Expire tm)) (op s);
                    handlers := S (handlers s);
                    running := running s; started := started s;
                    dropped := dropped s |}
          else None
      | None => None
      end
  | EvHandle now =>
      match handlers s with
      | O => None
      | S k =>
          let '(op', go) := handleTimer now (op s) in
          Some {| op := op'; handlers := k;
                  running := slot go ++ running s;
                  started := slot go ++ started s;
                  dropped := dropped s |}
      end
  | EvDone now f =>
      if is_in f (running s) then
        let '(op', go) := runner_loop now (op s) in
        Some {| op := op'; handlers := handlers s;
                running := slot go ++ remove_one f (running s);
                started := slot go ++ started s;
                dropped := dropped s |}
      else None
  end.

Fixpoint run (tr : list Event) (s : Sys) : option Sys :=
  match tr with
  | [] => Some s
  | e :: tr' =>
      match step e s with
      | Some s' => run tr' s'
      | None => None
      end
  end.

(** The callbacks a trace submits, in order. *)
Fixpoint submitted (tr : list Event) : list F :=
  match tr with
  | [] => []
  | EvDo _ f :: tr' => f :: submitted tr'
  | _ :: tr' => submitted tr'
  end.

Definition is_Reset (e : Event) : bool :=
  match e with EvReset _ => true | _ => false end.

(** A trace of [Do] calls, timer firings and runner progress only. *)
Definition no_Reset (tr : list Event) : Prop :=
  forallb (fun e => negb (is_Reset e)) tr = true.

(** *** The invariant of the throttle without [Reset] *)

Definition timer_armed (op : t) : bool :=
  match timer op with Some tm => Time.armed tm | None => false end.

(** The timer handlers still to come: started ones, and the one an
    armed timer will start. *)
Definition waiting (s : Sys) : nat :=
  (handlers s + (if timer_armed (op s) then 1 else 0))%nat.

Record Inv (s : Sys) : Prop := MkInv {
  inv_single : (length (running s) <= 1)%nat;
  inv_flag : isRunning (op s) = match running s with [] => false | _ => true end;
  inv_waiting : (waiting s <= 1)%nat;
  inv_armed : waiting s = 1%nat -> pending (op s) <> None /\ isRunning (op s) = false;
  inv_nodup : NoDup (slot (pending (op s)) ++ started s ++ dropped s);
  inv_running : forall g, g ∈ running s -> g ∈ started s
}.

(** Every callback the state knows of is among [subm]. *)
Definition known (subm : list F) (s : Sys) : Prop :=
  forall g, g ∈ slot (pending (op s)) ++ started s ++ dropped s -> g ∈ subm.

End Callbacks.

Arguments t : clear implicits.
Arguments Sys : clear implicits.
Arguments Event : clear implicits.

End OncePerDur.

(** ** The registry [Metrics] and its gauges *)

(** An edge ([psyche.Interface]) by its identity. *)
Definition Edge : Type := nat.

(** One call [e.Pub(subject, payload)]. *)
Record Publication := MkPub { pub_edge : Edge; pub_subject : string; pub_payload : string }.

Definition metricsSubject : string := ".metrics".

Definition newline : string := String "010"%char EmptyString.

(** The function value [func() { g.pub(val) }] a gauge hands to its
    throttle is given by the captured [val]. *)
Record Gauge := MkGauge {
  name : string;
  val : Z;
  oncePerDur : OncePerDur.t Z;
  oncePerDelta : OncePerDelta.t;
  raddr : string
}.

Record Metrics := MkMetrics {
  edges : gmap string Edge;
  gauges : list Gauge
}.

Definition set_val (x : Z) (g : Gauge) : Gauge :=
  {| name := name g; val := x; oncePerDur := oncePerDur g;
     oncePerDelta := oncePerDelta g; raddr := raddr g |}.
Definition set_oncePerDur (x : OncePerDur.t Z) (g : Gauge) : Gauge :=
  {| name := name g; val := val g; oncePerDur := x;
     oncePerDelta := oncePerDelta g; raddr := raddr g |}.
Definition set_oncePerDelta (x : OncePerDelta.t) (g : Gauge) : Gauge :=
  {| name := name g; val := val g; oncePerDur := oncePerDur g;
     oncePerDelta := x; raddr := raddr g |}.

Definition set_edges (x : gmap string Edge) (m : Metrics) : Metrics :=
  {| edges := x; gauges := gauges m |}.
Definition set_gauges (x : list Gauge) (m : Metrics) : Metrics :=
  {| edges := edges m; gauges := x |}.

Definition New : Metrics := {| edges := ∅; gauges := [] |}.

(** [NewGauge] appends the gauge and returns the pointer to it. *)
Definition NewGauge (name : string) (oncePerDur oncePerDelta : Z) (raddr : string)
    (m : Metrics) : Metrics * nat :=
  let g := {| name := name; val := 0;
              oncePerDur := OncePerDur.NewOncePerDur oncePerDur;
              oncePerDelta := OncePerDelta.NewOncePerDelta oncePerDelta;
              raddr := raddr |} in
  (set_gauges (gauges m ++ [g]) m, length (gauges m)).

Definition Val (g : Gauge) : Z := val g.

(** [fmt.Sprintf("%s=%d", g.name, val)] *)
Definition StringWithVal (g : Gauge) (val : Z) : string :=
  name g +:+ "=" +:+ pretty val.

(** A method call on an interface value that may be nil. *)
Definition edge_Pub (e : option Edge) (payload : string) : Result Publication :=
  match e with
  | Some e => Ok (MkPub e metricsSubject payload)
  | None => Panic
  end.

(** [Metrics.pub]: the publications made. With an empty [raddr] every
    edge gets one (Go leaves the order of the map iteration open; the
    order of [map_to_list] stands for it). *)
Definition pub (raddr : string) (payload : string) (m : Metrics) : Result (list Publication) :=
  if decide (raddr ≠ "") then
    match edges m !! raddr with
    | Some e => Ok [MkPub e metricsSubject payload]
    | None => Ok []
    end
  else
    Ok (map (fun kv => MkPub (snd kv) metricsSubject payload) (map_to_list (edges m))).

(** The test [g.raddr == "" || g.raddr == raddr] of [pubMetrics]. *)
Definition visible (scope : string) (g : Gauge) : bool :=
  bool_decide (raddr g = "") || bool_decide (raddr g = scope).

(** One round of the loop of [pubMetrics] on the gauge [g]; [now] is the
    time its throttle reads in [Reset]. *)
Definition pubMetrics_body (raddr : string) (now : Z) (g : Gauge) (b : string)
    : Gauge * string :=
  let val := Val g in
  let b := if visible raddr g then (b +:+ StringWithVal g val) +:+ newline else b in
  let g := set_oncePerDur (OncePerDur.Reset now (oncePerDur g)) g in
  let g := OncePerDelta.Reset oncePerDelta set_oncePerDelta val g in
  (g, b).

Fixpoint pubMetrics_loop (raddr : string) (clock : nat -> Z) (i : nat)
    (gs : list Gauge) (b : string) : list Gauge * string :=
  match gs with
  | [] => ([], b)
  | g :: rest =>
      let '(g', b') := pubMetrics_body raddr (clock i) g b in
      let '(rest', b'') := pubMetrics_loop raddr clock (S i) rest b' in
      (g' :: rest', b'')
  end.

(** [Metrics.pubMetrics]: the answer to a poll from [raddr]. *)
Definition pubMetrics (raddr : string) (clock : nat -> Z) (m : Metrics)
    : Result (Metrics * Publication) :=
  let '(gs, b) := pubMetrics_loop raddr clock 0 (gauges m) "" in
  match edge_Pub (edges m !! raddr) b with
  | Ok p => Ok (set_gauges gs m, p)
  | Panic => Panic
  end.

(** What the loop of [pubMetrics] does to one gauge, and the text it
    builds: one line per visible gauge. *)
Definition reset_gates (now : Z) (g : Gauge) : Gauge :=
  OncePerDelta.Reset oncePerDelta set_oncePerDelta (Val g)
    (set_oncePerDur (OncePerDur.Reset now (oncePerDur g)) g).

Definition line (g : Gauge) : string := StringWithVal g (Val g) +:+ newline.

Fixpoint dump (scope : string) (gs : list Gauge) : string :=
  match gs with
  | [] => ""
  | g :: rest => if visible scope g then line g +:+ dump scope rest else dump scope rest
  end.

(** [Attach] registers the edge (and starts its poller); [detach],
    called when the poller ends, removes it if it is still the one
    registered. *)
Definition Attach (edge : Edge) (remoteAddr : string) (m : Metrics) : Metrics :=
  set_edges (<[remoteAddr := edge]> (edges m)) m.

Definition detach (edge : Edge) (raddr : string) (m : Metrics) : Metrics :=
  match edges m !! raddr with
  | Some e => if decide (edge = e) then set_edges (delete raddr (edges m)) m else m
  | None => m
  end.

(** [Gauge.pub] *)
Definition Gauge_pub (g : Gauge) (v : Z) (m : Metrics) : Result (list Publication) :=
  pub (raddr g) (StringWithVal g v) m.

(** *** [Gauge.Add]

    The state the two gates act on: the gauge, and the callback of the
    runner goroutine the throttle has started, if it has. *)
Definition AddState : Type := Gauge * option Z.

Definition gate_of (s : AddState) : OncePerDelta.t := oncePerDelta (fst s).
Definition with_gate (o : OncePerDelta.t) (s : AddState) : AddState :=
  (set_oncePerDelta o (fst s), snd s).

(** [g.oncePerDur.Do(func() { g.pub(val) })] *)
Definition throttle_Do (now val : Z) (s : AddState) : AddState :=
  let '(op', go) := OncePerDur.Do now val (oncePerDur (fst s)) in
  (set_oncePerDur op' (fst s), go).

Definition Add (now n : Z) (g : Gauge) : AddState :=
  if n =? 0 then (g, None)
  else
    let val := add64 (val g) n in
    let g := set_val val g in
    OncePerDelta.Do gate_of with_gate val (throttle_Do now val) (g, None).

(** The earlier [Gauge.Add]: the throttle comes first, the delta gate
    is consulted only when the stored function runs. *)
Definition Add_prior (now n : Z) (g : Gauge) : AddState :=
  if n =? 0 then (g, None)
  else
    let val := add64 (val g) n in
    let g := set_val val g in
    throttle_Do now val (g, None).

(** *** Gauges behind pointers

    [goroutines] lists the runner goroutines started so far: the gauge
    and the value its first callback publishes. *)
Record World := MkWorld {
  reg : Metrics;
  goroutines : list (nat * Z)
}.

Definition ValAt (p : nat) (w : World) : option Z :=
  Val <$> gauges (reg w) !! p.

(** [g.Add(n)] for the gauge [p] points to; a [p] that points to no
    gauge leaves the world as it is. *)
Definition AddAt (p : nat) (now n : Z) (w : World) : World :=
  match gauges (reg w) !! p with
  | Some g =>
      let '(g', go) := Add now n g in
      {| reg := set_gauges (<[p := g']> (gauges (reg w))) (reg w);
         goroutines := match go with
                       | Some v => (p, v) :: goroutines w
                       | None => goroutines w
                       end |}
  | None => w
  end.

Definition Inc (p : nat) (now : Z) (w : World) : World := AddAt p now 1 w.
Definition Dec (p : nat) (now : Z) (w : World) : World := AddAt p now (-1) w.

(** ** Middleware *)

Definition Handler : Type := World -> Outcome World.

(** [gauge.Inc(); defer gauge.Dec(); next.ServeHTTP(w, r)]: the deferred
    call runs when [next] returns and when it panics, and the panic then
    goes on to the caller. [now1] and [now2] are the clock readings of
    the two [Add]s. *)
Definition InFlightMiddleware (gauge : nat) (now1 now2 : Z) (next : Handler) : Handler :=
  fun w =>
    let w := Inc gauge now1 w in
    match next w with
    | Returned w' => Returned (Dec gauge now2 w')
    | Panicked w' => Panicked (Dec gauge now2 w')
    end.

Definition Error : Type := string.

(** What [Read] and [Write] return. *)
Record IOResult := MkIO { io_n : Z; io_err : option Error }.

(** [net.Conn], as far as the wrappers use it. *)
Class NetConn (C : Type) := {
  RemoteAddr : C -> string;
  conn_Write : list Byte.byte -> C -> C * IOResult;
  conn_Read : list Byte.byte -> C -> C * (list Byte.byte * IOResult)
}.

(** [net.Listener]: [Accept] gives a connection or nil, and an error
    or nil. *)
Class NetListener (L C : Type) := {
  ln_Accept : L -> L * (option C * option Error)
}.

Section Wrappers.
Context {C L : Type} `{NetConn C} `{NetListener L C}.

Record metricsConn := MkConn {
  Conn : option C;
  sentTotal : nat;
  receivedTotal : nat;
  sentThis : nat;
  receivedThis : nat
}.

Definition set_Conn (c : option C) (mc : metricsConn) : metricsConn :=
  {| Conn := c; sentTotal := sentTotal mc; receivedTotal := receivedTotal mc;
     sentThis := sentThis mc; receivedThis := receivedThis mc |}.

Definition Write (b : list Byte.byte) (now1 now2 : Z) (mc : metricsConn) (w : World)
    : Result (metricsConn * World * IOResult) :=
  match Conn mc with
  | None => Panic
  | Some c =>
      let '(c', r) := conn_Write b c in
      let w := AddAt (sentTotal mc) now1 (io_n r) w in
      let w := AddAt (sentThis mc) now2 (io_n r) w in
      Ok (set_Conn (Some c') mc, w, r)
  end.

Definition Read (b : list Byte.byte) (now1 now2 : Z) (mc : metricsConn) (w : World)
    : Result (metricsConn * World * (list Byte.byte * IOResult)) :=
  match Conn mc with
  | None => Panic
  | Some c =>
      let '(c', (b', r)) := conn_Read b c in
      let w := AddAt (receivedTotal mc) now1 (io_n r) w in
      let w := AddAt (receivedThis mc) now2 (io_n r) w in
      Ok (set_Conn (Some c') mc, w, (b', r))
  end.

Record metricsListener := MkListener {
  Listener : L;
  ln_sentTotal : nat;
  ln_receivedTotal : nat;
  connGauges : string -> World -> (nat * nat) * World
}.

Definition set_Listener (l : L) (mln : metricsListener) : metricsListener :=
  {| Listener := l; ln_sentTotal := ln_sentTotal mln;
     ln_receivedTotal := ln_receivedTotal mln; connGauges := connGauges mln |}.

(** [metricsListener.Accept]: [conn.RemoteAddr()] is called whatever
    [err] is. *)
Definition Accept (mln : metricsListener) (w : World)
    : Result (metricsListener * World * (metricsConn * option Error)) :=
  let '(l', (conn, err)) := ln_Accept (Listener mln) in
  match conn with
  | None => Panic
  | Some c =>
      let raddr := RemoteAddr c in
      let '((sent, received), w') := connGauges mln raddr w in
      Ok (set_Listener l' mln, w',
          ({| Conn := conn; sentTotal := ln_sentTotal mln;
              receivedTotal := ln_receivedTotal mln;
              sentThis := sent; receivedThis := received |}, err))
  end.

(** The earlier [metricsConn] and [metricsListener.Accept]: one pair of
    gauges, and the connection is wrapped as it comes. *)
Record metricsConn_prior := MkConnPrior {
  prior_Conn : option C;
  prior_sent : nat;
  prior_received : nat
}.

Definition Accept_prior (mln : metricsListener) (w : World)
    : Result (metricsListener * World * (metricsConn_prior * option Error)) :=
  let '(l', (conn, err)) := ln_Accept (Listener mln) in
  Ok (set_Listener l' mln, w,
      ({| prior_Conn := conn; prior_sent := ln_sentTotal mln;
          prior_received := ln_receivedTotal mln |}, err)).

Definition SentReceivedMiddleware (sentTotal receivedTotal : nat)
    (connGauges : string -> World -> (nat * nat) * World) (ln : L) : metricsListener :=
  {| Listener := ln; ln_sentTotal := sentTotal; ln_receivedTotal := receivedTotal;
     connGauges := connGauges |}.

End Wrappers.

Arguments metricsConn : clear implicits.
Arguments metricsListener : clear implicits.
Arguments metricsConn_prior : clear implicits.

(** ** Sequences of calls *)

(** [g.Add(n)] for each [(now, n)] of [calls] in turn, [now] being the
    clock reading of that call; next to the gauge, the callbacks of the
    runner goroutines these calls have started, in order. *)
Fixpoint AddAll (calls : list (Z * Z)) (g : Gauge) : Gauge * list Z :=
  match calls with
  | [] => (g, [])
  | (now, n) :: rest =>
      let '(g1, go) := Add now n g in
      let '(g2, gos) := AddAll rest g1 in
      (g2, OncePerDur.slot go ++ gos)
  end.

Fixpoint total (ns : list Z) : Z :=
  match ns with
  | [] => 0
  | n :: rest => n + total rest
  end.

(** Starting from the value [v], every value reached by adding the
    [ns] one after the other is an [int64] less than [d] away from [L]. *)
Fixpoint within_band (L d v : Z) (ns : list Z) : Prop :=
  match ns with
  | [] => True
  | n :: rest => in_range (v + n) /\ Z.abs (v + n - L) < d /\ within_band L d (v + n) rest
  end.

(** The calls [Do(f)] of a burst, each with its clock reading. *)
Definition DoAll {F : Type} (calls : list (Z * F)) : list (OncePerDur.Event F) :=
  map (fun c => OncePerDur.EvDo (fst c) (snd c)) calls.

(** The comments on the fields of [OncePerDur], read on a state of the
    throttle and its goroutines: "if the timer is running then pending
    will be non-nil"; "if pending is non-nil then either the timer or the
    function runner is running"; "isRunning is true if and only if the
    function runner is running". The timer counts as running from the
    moment it is armed until its handler has taken the mutex. *)
Record documented {F : Type} (s : OncePerDur.Sys F) : Prop := MkDocumented {
  doc_single : (length (OncePerDur.running s) <= 1)%nat;
  doc_flag : OncePerDur.isRunning (OncePerDur.op s)
             = match OncePerDur.running s with [] => false | _ => true end;
  doc_waiting : (OncePerDur.waiting s <= 1)%nat;
  doc_timer : OncePerDur.waiting s = 1%nat ->
              OncePerDur.pending (OncePerDur.op s) <> None /\
              OncePerDur.isRunning (OncePerDur.op s) = false;
  doc_pending : OncePerDur.pending (OncePerDur.op s) <> None ->
                OncePerDur.waiting s = 1%nat \/
                OncePerDur.isRunning (OncePerDur.op s) = true
}.

(** Someone is there to run what is pending: an armed timer, a timer
    handler on its way, or a runner. *)
Definition attended {F : Type} (s : OncePerDur.Sys F) : Prop :=
  (OncePerDur.isRunning (OncePerDur.op s) = true -> OncePerDur.running s <> []) /\
  (OncePerDur.pending (OncePerDur.op s) <> None ->
   OncePerDur.timer_armed (OncePerDur.op s) = true \/
   (0 < OncePerDur.handlers s)%nat \/
   OncePerDur.isRunning (OncePerDur.op s) = true).

(** ** Sample data

    The server-wide gauge of [main]: [mtr.NewGauge("bytes_sent",
    time.Second, 128, "")]. *)
Definition bytes_sent_gauge : Gauge :=
  {| name := "bytes_sent"; val := 0;
     oncePerDur := OncePerDur.NewOncePerDur 1000000000;
     oncePerDelta := OncePerDelta.NewOncePerDelta 128; raddr := "" |}.

(** A connection that takes every byte written to it and has [inbox]
    left to read. *)
Record PipeConn := MkPipe { pipe_addr : string; inbox : list Byte.byte }.

#[export] Instance PipeConn_NetConn : NetConn PipeConn := {|
  RemoteAddr c := pipe_addr c;
  conn_Write b c := (c, MkIO (Z.of_nat (length b)) None);
  conn_Read b c :=
    let k := Nat.min (length b) (length (inbox c)) in
    (MkPipe (pipe_addr c) (drop k (inbox c)),
     (take k (inbox c) ++ drop k b, MkIO (Z.of_nat k) None))
|}.

(** A listener that plays back the results of its [Accept] calls. *)
Definition ScriptListener : Type := list (option PipeConn * option Error).

#[export] Instance ScriptListener_NetListener : NetListener ScriptListener PipeConn := {|
  ln_Accept l :=
    match l with
    | r :: l' => (l', r)
    | [] => ([], (None, Some "use of closed network connection"))
    end
|}.

(** How [main] makes the gauges of one connection. *)
Definition main_connGauges (raddr : string) (w : World) : (nat * nat) * World :=
  let '(m1, sent) := NewGauge "bytes_sent{conn=this}" 1000000000 128 raddr (reg w) in
  let '(m2, received) := NewGauge "bytes_received{conn=this}" 1000000000 0 raddr m1 in
  ((sent, received), {| reg := m2; goroutines := goroutines w |}).

(** The registry of [main] once it serves requests: the gauge of the
    requests in flight. *)
Definition in_flight_world : World :=
  {| reg := fst (NewGauge "requests_in_flight" 0 0 "" New); goroutines := [] |}.

(** The two server-wide byte gauges and those of one connection. *)
Definition four_gauges_world : World :=
  let '(m1, _) := NewGauge "bytes_sent" 1000000000 128 "" New in
  let '(m2, _) := NewGauge "bytes_received" 1000000000 0 "" m1 in
  snd (main_connGauges "10.0.0.7:4242" {| reg := m2; goroutines := [] |}).

Definition pipe_metricsConn : metricsConn PipeConn :=
  {| Conn := Some (MkPipe "10.0.0.7:4242" []); sentTotal := 0; receivedTotal := 1;
     sentThis := 2; receivedThis := 3 |}.

(** The poll scenario of the specification: a global gauge [G1 = 5], a
    gauge [G2 = 3] of scope ["A"] (threshold 128), and edges attached
    for ["A"] and ["B"]. *)
Definition poll_world : World :=
  let '(m1, g1) := NewGauge "G1" 1000000000 0 "" New in
  let '(m2, g2) := NewGauge "G2" 1000000000 128 "A" m1 in
  let m := Attach 2%nat "B" (Attach 1%nat "A" m2) in
  AddAt g2 5000000000 3 (AddAt g1 5000000000 5 {| reg := m; goroutines := [] |}).

(** The same after a newer edge 3 was attached for ["A"] in place of
    edge 1 and has closed again: its [detach] leaves no edge registered
    for ["A"], while the poller of edge 1 still serves. *)
Definition detached_world : World :=
  {| reg := detach 3%nat "A" (Attach 3%nat "A" (reg poll_world));
     goroutines := goroutines poll_world |}.

(** * Properties *)

(** ** Facts on [int64] arithmetic *)

Lemma wrap64_range z : in_range (wrap64 z).
Proof.
  unfold in_range, wrap64, min_int64, max_int64.
  pose proof (Z.mod_pos_bound (z + 2 ^ 63) (2 ^ 64) ltac:(lia)). lia.
Qed.

Lemma wrap64_id z : in_range z -> wrap64 z = z.
Proof.
  unfold in_range, wrap64, min_int64, max_int64. intros Hz.
  rewrite Z.mod_small; lia.
Qed.

Lemma wrap64_add_l a b : wrap64 (wrap64 a + b) = wrap64 (a + b).
Proof.
  unfold wrap64. f_equal.
  replace ((a + 2 ^ 63) mod 2 ^ 64 - 2 ^ 63 + b + 2 ^ 63)
    with ((a + 2 ^ 63) mod 2 ^ 64 + b) by lia.
  rewrite Zplus_mod_idemp_l. f_equal. lia.
Qed.

Lemma add64_add64 a b c : add64 (add64 a b) c = wrap64 (a + (b + c)).
Proof. unfold add64. rewrite wrap64_add_l. f_equal. lia. Qed.

Lemma add64_0_r a : in_range a -> add64 a 0 = a.
Proof. intros Ha. unfold add64. rewrite Z.add_0_r. by apply wrap64_id. Qed.

Lemma add64_inverse a n : in_range a -> add64 (add64 a n) (- n) = a.
Proof.
  intros Ha. rewrite add64_add64.
  replace (a + (n + - n)) with a by lia. by apply wrap64_id.
Qed.

Lemma add64_exact a n : in_range (a + n) -> add64 a n = a + n.
Proof. apply wrap64_id. Qed.

Lemma neg64_min : neg64 min_int64 = min_int64.
Proof. reflexivity. Qed.

(** The exact difference behind a wrapped difference of [min_int64]. *)
Lemma sub64_min_exact v l :
  in_range v -> in_range l -> sub64 v l = min_int64 -> Z.abs (v - l) = 2 ^ 63.
Proof.
  unfold in_range, sub64, wrap64, min_int64, max_int64. intros Hv Hl Hw.
  assert (Hm : (v - l + 2 ^ 63) mod 2 ^ 64 = 0) by lia.
  apply Z.mod_divide in Hm; [|lia]. destruct Hm as [k Hk].
  assert (k = 0 \/ k = 1) by lia. lia.
Qed.

(** ** The delta gate *)

Section DeltaGateFacts.
Context {St : Type} (get : St -> OncePerDelta.t) (set : OncePerDelta.t -> St -> St).

Lemma delta_Do_allows val fn s :
  OncePerDelta.allows val (get s) = true ->
  OncePerDelta.Do get set val fn s = fn (set (OncePerDelta.set_lastVal val (get s)) s).
Proof.
  unfold OncePerDelta.allows, OncePerDelta.absdiff, OncePerDelta.Do. cbn zeta.
  intros Ha. apply negb_true_iff in Ha. by rewrite Ha.
Qed.

Lemma delta_Do_rejects val fn s :
  OncePerDelta.allows val (get s) = false ->
  OncePerDelta.Do get set val fn s = s.
Proof.
  unfold OncePerDelta.allows, OncePerDelta.absdiff, OncePerDelta.Do. cbn zeta.
  intros Ha. apply negb_false_iff in Ha. by rewrite Ha.
Qed.

End DeltaGateFacts.

(** Where the subtraction and the negation stay inside [int64], [diff]
    is the absolute difference. *)
Lemma absdiff_exact v l :
  min_int64 < v - l <= max_int64 -> OncePerDelta.absdiff v l = Z.abs (v - l).
Proof.
  unfold OncePerDelta.absdiff, sub64, neg64, min_int64, max_int64. intros Hd.
  rewrite (wrap64_id (v - l)) by (unfold in_range, min_int64, max_int64; lia).
  destruct (Z.ltb_spec (v - l) 0).
  - rewrite wrap64_id by (unfold in_range, min_int64, max_int64; lia). lia.
  - lia.
Qed.

(** Away from the overflow the gate is the one of the specification. *)
Lemma delta_allows_iff_exact v opd :
  min_int64 < v - OncePerDelta.lastVal opd <= max_int64 ->
  OncePerDelta.allows v opd = true <-> Z.abs (v - OncePerDelta.lastVal opd) >= OncePerDelta.delta opd.
Proof.
  intros Hd. unfold OncePerDelta.allows. rewrite absdiff_exact by done.
  rewrite negb_true_iff, Z.ltb_ge. lia.
Qed.

(** The callback of an allowed [Do] starts on a gate that holds the new
    value already. *)
Lemma DoSolo_allowed v opd log :
  OncePerDelta.allows v opd = true ->
  OncePerDelta.DoSolo v (opd, log) = (OncePerDelta.set_lastVal v opd, v :: log).
Proof.
  intros Ha. unfold OncePerDelta.DoSolo.
  rewrite delta_Do_allows by done. reflexivity.
Qed.

Lemma ResetSolo_silent v opd log :
  OncePerDelta.ResetSolo v (opd, log) = (OncePerDelta.set_lastVal v opd, log).
Proof. reflexivity. Qed.

(** C3 (the code departs from the claim). On a fresh gate of threshold 0
    the value [min_int64] is a change of magnitude 2^63, at least the
    threshold, yet [Do] takes its early return: the callback is not
    called and [lastVal] stays 0. *)
Theorem delta_Do_drops_at_overflow :
  let gate := OncePerDelta.NewOncePerDelta 0 in
  Z.abs (min_int64 - OncePerDelta.lastVal gate) >= OncePerDelta.delta gate /\
  OncePerDelta.absdiff min_int64 (OncePerDelta.lastVal gate) = min_int64 /\
  OncePerDelta.DoSolo min_int64 (gate, []) = (gate, []).
Proof. vm_compute. repeat split; discriminate. Qed.

(** C10. When the wrapped difference [val - lastVal] is the least
    [int64], the conditional negation leaves it negative, and [Do] returns
    without calling the callback for every threshold above 0, although
    the exact change, 2^63, is as large as any threshold. *)
Theorem delta_Do_min_int64_suppressed :
  forall (St : Type) (get : St -> OncePerDelta.t) (set : OncePerDelta.t -> St -> St)
         (fn : St -> St) (s : St) (v : Z),
    in_range v -> in_range (OncePerDelta.lastVal (get s)) ->
    in_range (OncePerDelta.delta (get s)) ->
    sub64 v (OncePerDelta.lastVal (get s)) = min_int64 ->
    0 < OncePerDelta.delta (get s) ->
    OncePerDelta.absdiff v (OncePerDelta.lastVal (get s)) = min_int64 /\
    OncePerDelta.absdiff v (OncePerDelta.lastVal (get s)) < 0 /\
    OncePerDelta.Do get set v fn s = s /\
    Z.abs (v - OncePerDelta.lastVal (get s)) > OncePerDelta.delta (get s).
Proof.
  intros St get set fn s v Hv Hl Ht Hw Hpos.
  assert (Habs : OncePerDelta.absdiff v (OncePerDelta.lastVal (get s)) = min_int64).
  { unfold OncePerDelta.absdiff. rewrite Hw. reflexivity. }
  split; [done|]. split; [rewrite Habs; reflexivity|]. split.
  - apply delta_Do_rejects. unfold OncePerDelta.allows. rewrite Habs.
    apply negb_false_iff, Z.ltb_lt. unfold min_int64. lia.
  - rewrite (sub64_min_exact _ _ Hv Hl Hw).
    unfold in_range, max_int64 in Ht. lia.
Qed.

Lemma delta_Do_min_int64_suppressed_witness :
  OncePerDelta.DoSolo max_int64 ({| OncePerDelta.delta := 1; OncePerDelta.lastVal := -1 |}, [])
  = ({| OncePerDelta.delta := 1; OncePerDelta.lastVal := -1 |}, []).
Proof.
  refine (proj1 (proj2 (proj2 (delta_Do_min_int64_suppressed
    OncePerDelta.Solo OncePerDelta.solo_get OncePerDelta.solo_set OncePerDelta.solo_cb
    ({| OncePerDelta.delta := 1; OncePerDelta.lastVal := -1 |}, []) max_int64
    _ _ _ _ _)))).
  - vm_compute. split; discriminate.
  - vm_compute. split; discriminate.
  - vm_compute. split; discriminate.
  - vm_compute. reflexivity.
  - vm_compute. reflexivity.
Defined.

(** ** The throttle: one call of [Do] *)

Section ThrottleDo.
Context {F : Type}.
Implicit Types (op : OncePerDur.t F) (f : F).

Lemma Do_busy now f op :
  OncePerDur.not_nil (OncePerDur.pending op) || OncePerDur.isRunning op = true ->
  OncePerDur.Do now f op = (OncePerDur.set_pending (Some f) op, None).
Proof. intros Hb. unfold OncePerDur.Do. by rewrite Hb. Qed.

(** What holds of the claim: [f] becomes pending, a timer is armed and
    no runner is started. *)
Lemma Do_deferring_pending now f op :
  OncePerDur.deferring now op ->
  exists tm,
    OncePerDur.Do now f op
    = (OncePerDur.set_timer (Some tm) (OncePerDur.set_pending (Some f) op), None)
    /\ Time.armed tm = true.
Proof.
  intros (Hp & Hr & Hlt). unfold OncePerDur.Do. rewrite Hp, Hr. cbn.
  unfold Time.Before, Time.Add. destruct (Z.ltb_spec now (OncePerDur.last op + OncePerDur.dur op)); [|lia].
  destruct (OncePerDur.timer op); eexists; split; reflexivity.
Qed.

(** With no timer yet, the delay handed to [time.AfterFunc] is
    [now.Sub(next)]: negative, so the timer fires at once, at [now], and
    never at [last + dur]. *)
Lemma Do_deferring_first_timer now f op :
  OncePerDur.deferring now op -> OncePerDur.timer op = None ->
  let delay := Time.Sub now (OncePerDur.last op + OncePerDur.dur op) in
  OncePerDur.timer (fst (OncePerDur.Do now f op)) = Some (Time.AfterFunc now delay) /\
  delay < 0 /\
  Time.when (Time.AfterFunc now delay) = now /\
  Time.when (Time.AfterFunc now delay) <> OncePerDur.last op + OncePerDur.dur op.
Proof.
  intros (Hp & Hr & Hlt) Ht delay. unfold OncePerDur.Do. rewrite Hp, Hr. cbn.
  unfold Time.Before, Time.Add.
  destruct (Z.ltb_spec now (OncePerDur.last op + OncePerDur.dur op)); [|lia].
  cbn. rewrite Ht. cbn. split; [reflexivity|].
  assert (Hd : delay < 0).
  { unfold delay, Time.Sub, saturate64, min_int64, max_int64. lia. }
  split; [done|]. unfold Time.when_after.
  destruct (Z.leb_spec delay 0); lia.
Qed.

(** With a timer left from before, it is reset to the whole window. *)
Lemma Do_deferring_reset_timer now f op tm0 :
  OncePerDur.deferring now op -> OncePerDur.timer op = Some tm0 ->
  OncePerDur.timer (fst (OncePerDur.Do now f op))
  = Some (Time.Reset now (OncePerDur.dur op) tm0) /\
  (0 < OncePerDur.dur op ->
   Time.when (Time.Reset now (OncePerDur.dur op) tm0) = now + OncePerDur.dur op /\
   (Time.when (Time.Reset now (OncePerDur.dur op) tm0)
    = OncePerDur.last op + OncePerDur.dur op <-> now = OncePerDur.last op)).
Proof.
  intros (Hp & Hr & Hlt) Ht. unfold OncePerDur.Do. rewrite Hp, Hr. cbn.
  unfold Time.Before, Time.Add.
  destruct (Z.ltb_spec now (OncePerDur.last op + OncePerDur.dur op)); [|lia].
  cbn. rewrite Ht. cbn. split; [reflexivity|]. intros Hd.
  unfold Time.when_after. destruct (Z.leb_spec (OncePerDur.dur op) 0); lia.
Qed.

End ThrottleDo.

(** C1 (the code departs from the claim). A throttle of window 10 runs a
    first callback at time 100, which returns at 101. [Do] at time 103
    finds nothing pending or running and the window open until 110: it
    stores the callback and starts no runner, but the timer it arms has
    the delay 103 - 110 = -7 and fires at once, at 103, not at 110. A later such
    [Do], at 106 after a run at 105, resets the same timer to the whole
    window: it fires at 116, not at 115. *)
Theorem throttle_Do_arms_wrong_delay :
  let tr1 := [OncePerDur.EvDo 100 1%nat; OncePerDur.EvDone 101 1%nat] in
  let tr2 := [OncePerDur.EvFire 103; OncePerDur.EvHandle 105; OncePerDur.EvDone 105 2%nat] in
  exists s1 s2 s3 s4,
    OncePerDur.run tr1 (OncePerDur.init 10) = Some s1 /\
    OncePerDur.deferring 103 (OncePerDur.op s1) /\
    OncePerDur.step (OncePerDur.EvDo 103 2%nat) s1 = Some s2 /\
    OncePerDur.pending (OncePerDur.op s2) = Some 2%nat /\
    OncePerDur.running s2 = [] /\
    OncePerDur.timer (OncePerDur.op s2) = Some (Time.MkTimer 103 true) /\
    Time.Sub 103 110 = -7 /\
    OncePerDur.last (OncePerDur.op s1) + OncePerDur.dur (OncePerDur.op s1) = 110 /\
    OncePerDur.run tr2 s2 = Some s3 /\
    OncePerDur.deferring 106 (OncePerDur.op s3) /\
    OncePerDur.step (OncePerDur.EvDo 106 3%nat) s3 = Some s4 /\
    OncePerDur.pending (OncePerDur.op s4) = Some 3%nat /\
    OncePerDur.timer (OncePerDur.op s4) = Some (Time.MkTimer 116 true) /\
    OncePerDur.last (OncePerDur.op s3) + OncePerDur.dur (OncePerDur.op s3) = 115.
Proof.
  eexists _, _, _, _.
  repeat (match goal with |- _ /\ _ => split end;
          [vm_compute; repeat split; reflexivity|]).
  vm_compute. reflexivity.
Qed.

(** ** [Gauge.Add] *)

Lemma Add_zero now g : Add now 0 g = (g, None).
Proof. reflexivity. Qed.

Lemma Add_val now n g : in_range (val g) -> val (fst (Add now n g)) = add64 (val g) n.
Proof.
  intros Hr. unfold Add. destruct (Z.eqb_spec n 0) as [->|Hn].
  - cbn. by rewrite add64_0_r.
  - unfold OncePerDelta.Do. cbn zeta.
    destruct (_ <? _); [reflexivity|].
    unfold throttle_Do. cbn. by destruct (OncePerDur.Do _ _ _).
Qed.

Lemma Add_name_raddr now n g :
  name (fst (Add now n g)) = name g /\ raddr (fst (Add now n g)) = raddr g.
Proof.
  unfold Add. destruct (n =? 0); [done|].
  unfold OncePerDelta.Do. cbn zeta.
  destruct (_ <? _); [done|].
  unfold throttle_Do. cbn. by destruct (OncePerDur.Do _ _ _).
Qed.

(** C6. [Add n] with [n <> 0] hands the new value to the delta gate
    first. When the gate rejects it, only [val] changes: the throttle
    (timer, pending slot, [last], [isRunning]) and the gate stay as they
    were and no runner is started. When the gate allows it, the throttle's
    [Do] is called once, with the new value, on the gate already moved
    to that value. *)
Theorem Add_delta_then_throttle :
  forall (now n : Z) (g : Gauge),
    n <> 0 ->
    let v := add64 (val g) n in
    (OncePerDelta.allows v (oncePerDelta g) = false ->
       Add now n g = (set_val v g, None) /\
       oncePerDur (fst (Add now n g)) = oncePerDur g /\
       oncePerDelta (fst (Add now n g)) = oncePerDelta g) /\
    (OncePerDelta.allows v (oncePerDelta g) = true ->
       Add now n g
       = throttle_Do now v
           (set_oncePerDelta (OncePerDelta.set_lastVal v (oncePerDelta g)) (set_val v g), None) /\
       oncePerDur (fst (Add now n g)) = fst (OncePerDur.Do now v (oncePerDur g)) /\
       snd (Add now n g) = snd (OncePerDur.Do now v (oncePerDur g))).
Proof.
  intros now n g Hn v. unfold Add.
  destruct (Z.eqb_spec n 0) as [|_]; [done|]. fold v. split; intros Ha.
  - rewrite delta_Do_rejects by done. done.
  - rewrite delta_Do_allows by done. split; [reflexivity|].
    unfold throttle_Do, gate_of, with_gate. cbn.
    by destruct (OncePerDur.Do now v (oncePerDur g)).
Qed.

Lemma Add_delta_then_throttle_witness :
  Add 5 100 bytes_sent_gauge = (set_val 100 bytes_sent_gauge, None).
Proof.
  refine (proj1 (proj1 (Add_delta_then_throttle 5 100 bytes_sent_gauge _) _)).
  - discriminate.
  - vm_compute. reflexivity.
Defined.

(** The earlier order is different: there a change below the threshold
    does reach the throttle (here it starts a runner). *)
Lemma Add_prior_touches_throttle :
  OncePerDelta.allows 100 (oncePerDelta bytes_sent_gauge) = false /\
  oncePerDur (fst (Add_prior 5000000000 100 bytes_sent_gauge)) <> oncePerDur bytes_sent_gauge /\
  snd (Add_prior 5000000000 100 bytes_sent_gauge) = Some 100.
Proof. vm_compute. repeat split. discriminate. Qed.

(** ** Gauges behind pointers *)

Lemma Add_val_nonzero now n g : n <> 0 -> val (fst (Add now n g)) = add64 (val g) n.
Proof.
  intros Hn. unfold Add. destruct (Z.eqb_spec n 0) as [|_]; [done|].
  unfold OncePerDelta.Do. cbn zeta.
  destruct (_ <? _); [reflexivity|].
  unfold throttle_Do. cbn. by destruct (OncePerDur.Do _ _ _).
Qed.

Lemma AddAt_gauges p now n w g :
  gauges (reg w) !! p = Some g ->
  gauges (reg (AddAt p now n w)) = <[p := fst (Add now n g)]> (gauges (reg w)).
Proof. intros Hg. unfold AddAt. rewrite Hg. by destruct (Add now n g). Qed.

Lemma ValAt_AddAt_same p now n w v :
  ValAt p w = Some v -> n <> 0 \/ in_range v ->
  ValAt p (AddAt p now n w) = Some (add64 v n).
Proof.
  unfold ValAt. intros Hv Hn.
  destruct (gauges (reg w) !! p) as [g|] eqn:Hg; [|done].
  injection Hv as <-. rewrite (AddAt_gauges _ _ _ _ _ Hg).
  rewrite list_lookup_insert_eq by (by eapply lookup_lt_Some). cbn. f_equal.
  destruct Hn as [Hn|Hr]; [by apply Add_val_nonzero | by apply Add_val].
Qed.

Lemma ValAt_AddAt_other p q now n w : p <> q -> ValAt q (AddAt p now n w) = ValAt q w.
Proof.
  intros Hne. unfold ValAt, AddAt.
  destruct (gauges (reg w) !! p) as [g|] eqn:Hg; [|done].
  destruct (Add now n g). cbn. by rewrite list_lookup_insert_ne.
Qed.

(** ** The in-flight middleware *)

(** C7. Around every request the gauge is incremented once before the
    inner handler runs, which therefore reads one more than before (the
    [int64] successor; exactly [v + 1] below [max_int64]); and whether the
    handler returns or panics, the deferred decrement is applied once to
    the state it leaves, the panic going on to the caller. A handler that
    leaves the gauge alone thus ends with the value from before the
    request. *)
Theorem InFlightMiddleware_inc_dec :
  forall (gauge : nat) (now1 now2 : Z) (next : Handler) (w : World) (v : Z),
    ValAt gauge w = Some v ->
    in_range v ->
    let w1 := Inc gauge now1 w in
    let out := InFlightMiddleware gauge now1 now2 next w in
    ValAt gauge w1 = Some (add64 v 1) /\
    (v < max_int64 -> ValAt gauge w1 = Some (v + 1)) /\
    state_of out = Dec gauge now2 (state_of (next w1)) /\
    has_panicked out = has_panicked (next w1) /\
    (forall v2, ValAt gauge (state_of (next w1)) = Some v2 ->
                ValAt gauge (state_of out) = Some (add64 v2 (-1))) /\
    (ValAt gauge (state_of (next w1)) = ValAt gauge w1 ->
     ValAt gauge (state_of out) = Some v).
Proof.
  intros gauge now1 now2 next w v Hv Hr w1 out.
  assert (H1 : ValAt gauge w1 = Some (add64 v 1)).
  { apply ValAt_AddAt_same; [done | by left]. }
  assert (Hst : state_of out = Dec gauge now2 (state_of (next w1))).
  { unfold out, InFlightMiddleware. fold w1. by destruct (next w1). }
  assert (Hdec : forall v2, ValAt gauge (state_of (next w1)) = Some v2 ->
                            ValAt gauge (state_of out) = Some (add64 v2 (-1))).
  { intros v2 H2. rewrite Hst. apply ValAt_AddAt_same; [done | by left]. }
  repeat split.
  - done.
  - intros Hlt. rewrite H1. f_equal. apply add64_exact.
    unfold in_range, min_int64, max_int64 in *. lia.
  - done.
  - unfold out, InFlightMiddleware. fold w1. by destruct (next w1).
  - done.
  - intros Hsame. rewrite (Hdec (add64 v 1)) by (by rewrite Hsame).
    f_equal. by apply (add64_inverse v 1).
Qed.

Lemma InFlightMiddleware_inc_dec_witness :
  ValAt 0 (state_of (InFlightMiddleware 0 100 200 (fun w => Panicked w) in_flight_world))
  = Some 0.
Proof.
  refine (proj2 (proj2 (proj2 (proj2 (proj2
    (InFlightMiddleware_inc_dec 0 100 200 (fun w => Panicked w) in_flight_world 0 _ _))))) _).
  - reflexivity.
  - vm_compute. split; discriminate.
  - reflexivity.
Defined.

(** ** The wrapped connection *)

Section ConnFacts.
Context {C : Type} `{NetConn C}.

Lemma Write_counts (mc : metricsConn C) c w b now1 now2 :
  Conn mc = Some c ->
  sentTotal mc <> sentThis mc ->
  let r := snd (conn_Write b c) in
  exists w',
    Write b now1 now2 mc w = Ok (set_Conn (Some (fst (conn_Write b c))) mc, w', r) /\
    (forall v, ValAt (sentTotal mc) w = Some v -> in_range v ->
               ValAt (sentTotal mc) w' = Some (add64 v (io_n r))) /\
    (forall v, ValAt (sentThis mc) w = Some v -> in_range v ->
               ValAt (sentThis mc) w' = Some (add64 v (io_n r))) /\
    (forall q, q <> sentTotal mc -> q <> sentThis mc -> ValAt q w' = ValAt q w).
Proof.
  intros Hc Hne r. unfold Write. rewrite Hc. subst r.
  destruct (conn_Write b c) as [c' r]. cbn. eexists. split; [reflexivity|].
  split; [|split].
  - intros v Hv Hr. rewrite ValAt_AddAt_other by done.
    apply ValAt_AddAt_same; auto.
  - intros v Hv Hr. apply ValAt_AddAt_same; [|auto].
    by rewrite ValAt_AddAt_other.
  - intros q H1 H2. by rewrite !ValAt_AddAt_other.
Qed.

Lemma Read_counts (mc : metricsConn C) c w b now1 now2 :
  Conn mc = Some c ->
  receivedTotal mc <> receivedThis mc ->
  let r := snd (snd (conn_Read b c)) in
  exists w',
    Read b now1 now2 mc w
    = Ok (set_Conn (Some (fst (conn_Read b c))) mc, w', snd (conn_Read b c)) /\
    (forall v, ValAt (receivedTotal mc) w = Some v -> in_range v ->
               ValAt (receivedTotal mc) w' = Some (add64 v (io_n r))) /\
    (forall v, ValAt (receivedThis mc) w = Some v -> in_range v ->
               ValAt (receivedThis mc) w' = Some (add64 v (io_n r))) /\
    (forall q, q <> receivedTotal mc -> q <> receivedThis mc -> ValAt q w' = ValAt q w).
Proof.
  intros Hc Hne r. unfold Read. rewrite Hc. subst r.
  destruct (conn_Read b c) as [c' [b' r]]. cbn. eexists. split; [reflexivity|].
  split; [|split].
  - intros v Hv Hr. rewrite ValAt_AddAt_other by done.
    apply ValAt_AddAt_same; auto.
  - intros v Hv Hr. apply ValAt_AddAt_same; [|auto].
    by rewrite ValAt_AddAt_other.
  - intros q H1 H2. by rewrite !ValAt_AddAt_other.
Qed.

End ConnFacts.

(** C8. On a wrapped connection whose four gauges are distinct, a
    [Write] that transfers [n] bytes adds [n] (in [int64]) to the
    server-wide and to the connection's own "sent" gauge, once each, and
    leaves both "received" gauges alone; a [Read] does the same to the
    two "received" gauges and leaves both "sent" gauges alone; so a
    write of 100 bytes followed by one of 50 raises each "sent" gauge by
    150. *)
Theorem metricsConn_counts_bytes :
  forall (C : Type) (NC : NetConn C) (mc : metricsConn C) (c : C) (w : World)
         (st sh rt rh : Z),
    Conn mc = Some c ->
    NoDup [sentTotal mc; sentThis mc; receivedTotal mc; receivedThis mc] ->
    ValAt (sentTotal mc) w = Some st -> ValAt (sentThis mc) w = Some sh ->
    ValAt (receivedTotal mc) w = Some rt -> ValAt (receivedThis mc) w = Some rh ->
    in_range st -> in_range sh -> in_range rt -> in_range rh ->
    (forall b now1 now2, exists mc' w' r,
        Write b now1 now2 mc w = Ok (mc', w', r) /\
        r = snd (conn_Write b c) /\
        ValAt (sentTotal mc) w' = Some (add64 st (io_n r)) /\
        ValAt (sentThis mc) w' = Some (add64 sh (io_n r)) /\
        ValAt (receivedTotal mc) w' = Some rt /\
        ValAt (receivedThis mc) w' = Some rh) /\
    (forall b now1 now2, exists mc' w' b' r,
        Read b now1 now2 mc w = Ok (mc', w', (b', r)) /\
        (b', r) = snd (conn_Read b c) /\
        ValAt (receivedTotal mc) w' = Some (add64 rt (io_n r)) /\
        ValAt (receivedThis mc) w' = Some (add64 rh (io_n r)) /\
        ValAt (sentTotal mc) w' = Some st /\
        ValAt (sentThis mc) w' = Some sh) /\
    (forall b1 b2 t1 t2 t3 t4 mc1 w1 r1 mc2 w2 r2,
        Write b1 t1 t2 mc w = Ok (mc1, w1, r1) ->
        Write b2 t3 t4 mc1 w1 = Ok (mc2, w2, r2) ->
        io_n r1 = 100 -> io_n r2 = 50 ->
        ValAt (sentTotal mc) w2 = Some (add64 st 150) /\
        ValAt (sentThis mc) w2 = Some (add64 sh 150) /\
        (st + 150 <= max_int64 -> ValAt (sentTotal mc) w2 = Some (st + 150)) /\
        (sh + 150 <= max_int64 -> ValAt (sentThis mc) w2 = Some (sh + 150)) /\
        ValAt (receivedTotal mc) w2 = Some rt /\
        ValAt (receivedThis mc) w2 = Some rh).
Proof.
  intros C NC mc c w st sh rt rh Hc Hnd Hst Hsh Hrt Hrh Rst Rsh Rrt Rrh.
  apply NoDup_cons in Hnd as [Hn1 Hnd]. apply NoDup_cons in Hnd as [Hn2 Hnd].
  apply NoDup_cons in Hnd as [Hn3 _].
  assert (D1 : sentTotal mc <> sentThis mc) by set_solver.
  assert (D2 : sentTotal mc <> receivedTotal mc) by set_solver.
  assert (D3 : sentTotal mc <> receivedThis mc) by set_solver.
  assert (D4 : sentThis mc <> receivedTotal mc) by set_solver.
  assert (D5 : sentThis mc <> receivedThis mc) by set_solver.
  assert (D6 : receivedTotal mc <> receivedThis mc) by set_solver.
  split; [|split].
  - intros b now1 now2.
    destruct (Write_counts mc c w b now1 now2 Hc) as (w' & Hw & Ht & Hh & Ho); [done|].
    do 3 eexists. split; [exact Hw|]. split; [reflexivity|].
    rewrite (Ht _ Hst Rst), (Hh _ Hsh Rsh), !Ho by done. done.
  - intros b now1 now2.
    destruct (Read_counts mc c w b now1 now2 Hc) as (w' & Hw & Ht & Hh & Ho); [done|].
    destruct (conn_Read b c) as [c' [b' r]] eqn:Hrd. cbn in *.
    do 4 eexists. split; [exact Hw|]. split; [reflexivity|].
    rewrite (Ht _ Hrt Rrt), (Hh _ Hrh Rrh), !Ho by done. done.
  - intros b1 b2 t1 t2 t3 t4 mc1 w1 r1 mc2 w2 r2 W1 W2 E1 E2.
    destruct (Write_counts mc c w b1 t1 t2 Hc) as (w1' & Hw & Ht & Hh & Ho); [done|].
    rewrite Hw in W1. injection W1 as <- <- <-.
    set (c1 := fst (conn_Write b1 c)) in *.
    destruct (Write_counts (set_Conn (Some c1) mc) c1 w1' b2 t3 t4 eq_refl)
      as (w2' & Hw2 & Ht2 & Hh2 & Ho2); [done|].
    rewrite Hw2 in W2. injection W2 as <- <- <-. cbn in Ht2, Hh2, Ho2.
    rewrite E1 in Ht, Hh. rewrite E2 in Ht2, Hh2.
    assert (A1 : ValAt (sentTotal mc) w2' = Some (add64 st 150)).
    { rewrite (Ht2 _ (Ht _ Hst Rst) (wrap64_range _)). by rewrite add64_add64. }
    assert (A2 : ValAt (sentThis mc) w2' = Some (add64 sh 150)).
    { rewrite (Hh2 _ (Hh _ Hsh Rsh) (wrap64_range _)). by rewrite add64_add64. }
    split; [done|]. split; [done|].
    split; [|split].
    + intros Hle. rewrite A1. f_equal. apply add64_exact.
      unfold in_range, min_int64, max_int64 in *. lia.
    + intros Hle. rewrite A2. f_equal. apply add64_exact.
      unfold in_range, min_int64, max_int64 in *. lia.
    + rewrite !Ho2, !Ho by done. done.
Qed.

Lemma metricsConn_counts_bytes_witness :
  exists mc' w' r,
    Write (replicate 100 Byte.x61) 7 8 pipe_metricsConn four_gauges_world = Ok (mc', w', r) /\
    r = snd (conn_Write (replicate 100 Byte.x61) (MkPipe "10.0.0.7:4242" [])) /\
    ValAt 0 w' = Some (add64 0 (io_n r)) /\
    ValAt 2 w' = Some (add64 0 (io_n r)) /\
    ValAt 1 w' = Some 0 /\
    ValAt 3 w' = Some 0.
Proof.
  refine (proj1 (metricsConn_counts_bytes PipeConn _ pipe_metricsConn
    (MkPipe "10.0.0.7:4242" []) four_gauges_world 0 0 0 0 _ _ _ _ _ _ _ _ _ _)
    (replicate 100 Byte.x61) 7 8).
  - reflexivity.
  - cbn. repeat constructor; rewrite ?elem_of_cons, ?elem_of_nil; lia.
  - reflexivity.
  - reflexivity.
  - reflexivity.
  - reflexivity.
  - vm_compute. split; discriminate.
  - vm_compute. split; discriminate.
  - vm_compute. split; discriminate.
  - vm_compute. split; discriminate.
Defined.

(** ** The instrumented listener *)

Section ListenerFacts.
Context {C L : Type} `{NetConn C} `{NetListener L C}.

Lemma Accept_nil_conn_panics (mln : metricsListener L) w l' err :
  ln_Accept (Listener mln) = (l', (None, err)) -> Accept mln w = Panic.
Proof. intros Ha. unfold Accept. by rewrite Ha. Qed.

Lemma Accept_prior_never_panics (mln : metricsListener L) w :
  Accept_prior mln w <> Panic.
Proof.
  unfold Accept_prior. by destruct (ln_Accept (Listener mln)) as [l' [conn err]].
Qed.

End ListenerFacts.

(** C9 (the code departs from the claim). The listener below fails its
    first [Accept]: no connection, an error. The wrapped [Accept] does
    not hand the error back: it calls [RemoteAddr] on the nil connection
    and panics. The earlier [Accept] returned the error. *)
Theorem Accept_failed_accept_panics :
  let ln : ScriptListener := [(None, Some "accept tcp: too many open files")] in
  let mln := SentReceivedMiddleware 0 1 main_connGauges ln in
  ln_Accept ln = ([], (None, Some "accept tcp: too many open files")) /\
  Accept mln four_gauges_world = Panic /\
  exists mc, Accept_prior mln four_gauges_world
             = Ok (set_Listener [] mln, four_gauges_world,
                   (mc, Some "accept tcp: too many open files")).
Proof. cbn. split; [reflexivity|]. split; [reflexivity|]. eexists. reflexivity. Qed.

(** ** Polls and publications *)

Lemma string_app_assoc (a b c : string) : (a +:+ b) +:+ c = a +:+ (b +:+ c).
Proof.
  induction a as [|x a IH]; [done|].
  change (String x ((a +:+ b) +:+ c) = String x (a +:+ (b +:+ c))). by rewrite IH.
Qed.

Lemma string_app_nil_r (a : string) : a +:+ "" = a.
Proof.
  induction a as [|x a IH]; [done|].
  change (String x (a +:+ "") = String x a). by rewrite IH.
Qed.

Lemma pubMetrics_loop_spec scope clock gs : forall i b,
  pubMetrics_loop scope clock i gs b
  = (imap (fun k g => reset_gates (clock (i + k)%nat) g) gs, b +:+ dump scope gs).
Proof.
  induction gs as [|g gs IH]; intros i b; cbn [pubMetrics_loop dump imap].
  - by rewrite string_app_nil_r.
  - unfold pubMetrics_body. cbn zeta. rewrite IH. f_equal.
    + rewrite Nat.add_0_r. f_equal. apply imap_ext. intros k x _. cbn.
      f_equal. f_equal. lia.
    + unfold line. destruct (visible scope g); [|done].
      by rewrite !string_app_assoc.
Qed.

(** The poll of an attached scope: one publication, and every gauge of
    the registry, visible to the scope or not, has its gates reset. *)
Lemma pubMetrics_attached scope clock m e :
  edges m !! scope = Some e ->
  pubMetrics scope clock m
  = Ok (set_gauges (imap (fun k g => reset_gates (clock k) g) (gauges m)) m,
        MkPub e metricsSubject (dump scope (gauges m))).
Proof.
  intros He. unfold pubMetrics. rewrite pubMetrics_loop_spec, He. reflexivity.
Qed.

Lemma pubMetrics_not_attached scope clock m :
  edges m !! scope = None -> pubMetrics scope clock m = Panic.
Proof.
  intros He. unfold pubMetrics. rewrite pubMetrics_loop_spec, He. reflexivity.
Qed.

(** [Metrics.pub] checks that the edge is there. *)
Lemma pub_never_panics scope payload m : pub scope payload m <> Panic.
Proof. unfold pub. case_decide; [|done]. by destruct (edges m !! scope). Qed.

Lemma pub_not_attached scope payload m :
  scope <> "" -> edges m !! scope = None -> pub scope payload m = Ok [].
Proof. intros Hs He. unfold pub. rewrite decide_True by done. by rewrite He. Qed.

(** C4 (the code departs from the claim). In the poll scenario a poll
    from ["B"] is answered with the one payload [G1=5]; [G2], which has
    scope ["A"] and is not in the payload, has its gates reset all the
    same: its delta gate moves from 0 to 3 and its throttle's [last] to
    the time of the poll. *)
Theorem pubMetrics_resets_foreign_gauges :
  let m := reg poll_world in
  let clock := fun _ : nat => 6000000000 in
  exists m' g2 g2',
    pubMetrics "B" clock m = Ok (m', MkPub 2%nat metricsSubject ("G1=5" +:+ newline)) /\
    gauges m !! 1%nat = Some g2 /\ gauges m' !! 1%nat = Some g2' /\
    raddr g2 = "A" /\ visible "B" g2 = false /\ val g2 = 3 /\
    OncePerDelta.lastVal (oncePerDelta g2) = 0 /\
    OncePerDelta.lastVal (oncePerDelta g2') = 3 /\
    OncePerDur.last (oncePerDur g2) = 0 /\
    OncePerDur.last (oncePerDur g2') = 6000000000.
Proof.
  eexists _, _, _.
  repeat (match goal with |- _ /\ _ => split end; [vm_compute; reflexivity|]).
  vm_compute. reflexivity.
Qed.

(** What the reset of a foreign gauge costs: without the poll from
    ["B"], adding 126 to [G2] passes its delta gate (129 against the 0
    last published) and a runner is started to publish 129 to ["A"];
    after the poll the same change is judged against 3 and dropped. *)
Lemma foreign_poll_hides_change :
  let clock := fun _ : nat => 6000000000 in
  exists g2 m' p g2',
    gauges (reg poll_world) !! 1%nat = Some g2 /\
    pubMetrics "B" clock (reg poll_world) = Ok (m', p) /\
    gauges m' !! 1%nat = Some g2' /\
    snd (Add 7000000000 126 g2) = Some 129 /\
    snd (Add 7000000000 126 g2') = None /\
    oncePerDur (fst (Add 7000000000 126 g2')) = oncePerDur g2'.
Proof.
  eexists _, _, _, _.
  repeat (match goal with |- _ /\ _ => split end; [vm_compute; reflexivity|]).
  vm_compute. reflexivity.
Qed.

(** C5 (the code departs from the claim). With no edge registered for
    ["A"], the publication of a gauge of scope ["A"] is dropped without a
    panic, but the answer to a poll from ["A"] calls [Pub] on the nil
    edge and panics. *)
Theorem pubMetrics_panics_when_detached :
  let m := reg detached_world in
  edges m !! "A" = None /\
  (exists g2, gauges m !! 1%nat = Some g2 /\ raddr g2 = "A" /\ Gauge_pub g2 3 m = Ok []) /\
  pubMetrics "A" (fun _ => 6000000000) m = Panic.
Proof. vm_compute. split; [done|]. split; [|done]. eexists. repeat split. Qed.

(** ** The throttle among its goroutines *)

Section ThrottleInvariant.
Context {F : Type} `{EqDecision F}.
Implicit Types (s : OncePerDur.Sys F) (e : OncePerDur.Event F) (f g : F).

Lemma init_Inv d : OncePerDur.Inv (OncePerDur.init (F:=F) d).
Proof.
  constructor; cbn; first [done | lia | apply NoDup_nil_2 | set_solver].
Qed.

Lemma init_known d : OncePerDur.known [] (OncePerDur.init (F:=F) d).
Proof. intros g Hg. cbn in Hg. by apply elem_of_nil in Hg. Qed.

Lemma elem_of_middle (x a : F) (l1 l2 : list F) : x ∈ l1 ++ a :: l2 <-> x ∈ a :: l1 ++ l2.
Proof. by rewrite <- Permutation_middle. Qed.

Lemma remove_one_head f l : OncePerDur.remove_one f (f :: l) = l.
Proof. cbn. by rewrite decide_True. Qed.

(** With at most one runner, the runner whose callback returns is the
    only one. *)
Lemma single_running f (l : list F) : (length l <= 1)%nat -> f ∈ l -> l = [f].
Proof.
  destruct l as [|x [|y l]]; cbn; intros Hl Hf.
  - by apply elem_of_nil in Hf.
  - apply list_elem_of_singleton in Hf. by subst.
  - lia.
Qed.

Ltac simp_sys :=
  unfold OncePerDur.known, OncePerDur.waiting, OncePerDur.timer_armed,
    OncePerDur.set_pending, OncePerDur.set_last, OncePerDur.set_timer,
    OncePerDur.set_isRunning in *;
  cbn in *.

(** The routine obligations of an invariant step. *)
Ltac inv_step I4 Hk :=
  first
    [ done
    | lia
    | (intros Hw_; destruct (I4 Hw_) as [? ?]; split; done)
    | (intros Hw_; split; [done | done])
    | (intros Hw_; exfalso; lia)
    | (intros x_ Hx_; apply list_elem_of_singleton in Hx_; subst; apply list_elem_of_here)
    | (intros x_ Hx_; apply elem_of_cons in Hx_ as [->|Hx_];
       [apply list_elem_of_here
       |apply list_elem_of_further;
        first [by apply Hk | apply Hk; by apply elem_of_middle]]) ].

Lemma Do_Inv now f s s' subm :
  OncePerDur.Inv s -> OncePerDur.known subm s -> f ∉ subm ->
  OncePerDur.step (OncePerDur.EvDo now f) s = Some s' ->
  OncePerDur.Inv s' /\ OncePerDur.known (f :: subm) s'.
Proof.
  intros [I1 I2 I3 I4 I5 I6] Hk Hf Hs.
  destruct s as [[d l tm p r] h rn st dr].
  unfold OncePerDur.step, OncePerDur.Do in Hs. simp_sys.
  assert (Hfresh : f ∉ OncePerDur.slot p ++ st ++ dr) by (intros Hin; by apply Hf, Hk).
  destruct p as [g|]; cbn in Hs.
  - (* a callback is pending: it is overwritten *)
    injection Hs as <-. split; [constructor|]; simp_sys.
    5:{ apply NoDup_cons in I5 as [Hg I5].
        apply NoDup_cons. split; [by rewrite elem_of_middle|].
        rewrite <- Permutation_middle. apply NoDup_cons. done. }
    all: inv_step I4 Hk.
  - destruct r; cbn in Hs.
    + (* a runner is at work: [f] becomes pending *)
      injection Hs as <-. split; [constructor|]; simp_sys.
      5:{ apply NoDup_cons. done. }
      all: inv_step I4 Hk.
    + assert (Hw0 : (h + (if match tm with Some t => Time.armed t | None => false end
                          then 1 else 0) = 0)%nat).
      { destruct (decide ((h + (if match tm with Some t => Time.armed t | None => false end
                                then 1 else 0))%nat = 1%nat)) as [E|E]; [|lia].
        destruct (I4 E) as [? _]. done. }
      destruct rn as [|x rn]; [|done].
      destruct (Time.Before now (Time.Add l d)); cbn in Hs.
      * (* inside the window: [f] is deferred to the timer *)
        assert (Hs' : s' = {| OncePerDur.op :=
                               {| OncePerDur.dur := d; OncePerDur.last := l;
                                  OncePerDur.timer :=
                                    Some (match tm with
                                          | None => Time.AfterFunc now (Time.Sub now (Time.Add l d))
                                          | Some t => Time.Reset now d t
                                          end);
                                  OncePerDur.pending := Some f;
                                  OncePerDur.isRunning := false |};
                             OncePerDur.handlers := h; OncePerDur.running := [];
                             OncePerDur.started := st; OncePerDur.dropped := dr |}).
        { destruct tm; by injection Hs as <-. }
        subst s'. split; [constructor|]; simp_sys.
        3:{ destruct tm; cbn; lia. }
        4:{ apply NoDup_cons. done. }
        all: inv_step I4 Hk.
      * (* the window has passed: a runner is started with [f] *)
        injection Hs as <-. split; [constructor|]; simp_sys.
        5:{ apply NoDup_cons. done. }
        all: inv_step I4 Hk.
Qed.

Lemma Fire_Inv now s s' subm :
  OncePerDur.Inv s -> OncePerDur.known subm s ->
  OncePerDur.step (OncePerDur.EvFire now) s = Some s' ->
  OncePerDur.Inv s' /\ OncePerDur.known subm s'.
Proof.
  intros [I1 I2 I3 I4 I5 I6] Hk Hs.
  destruct s as [[d l tm p r] h rn st dr].
  unfold OncePerDur.step in Hs. simp_sys.
  destruct tm as [[wh ar]|]; [|done]. cbn in *.
  destruct ar; [|done]. cbn in *.
  destruct (wh <=? now); [|done]. injection Hs as <-.
  split; [constructor|]; simp_sys.
  4:{ intros _. apply I4. lia. }
  all: first [done | lia].
Qed.

Lemma Handle_Inv now s s' subm :
  OncePerDur.Inv s -> OncePerDur.known subm s ->
  OncePerDur.step (OncePerDur.EvHandle now) s = Some s' ->
  OncePerDur.Inv s' /\ OncePerDur.known subm s'.
Proof.
  intros [I1 I2 I3 I4 I5 I6] Hk Hs.
  destruct s as [[d l tm p r] h rn st dr].
  unfold OncePerDur.step, OncePerDur.handleTimer in Hs. simp_sys.
  destruct h as [|k]; [done|].
  assert (Hw : (S k + (if match tm with Some t => Time.armed t | None => false end
                       then 1 else 0) = 1)%nat) by lia.
  destruct (I4 Hw) as [Hp ->].
  destruct p as [f|]; [|done]. destruct rn as [|x rn]; [|done].
  injection Hs as <-. split; [constructor|]; simp_sys.
  4:{ intros Hw'. exfalso. lia. }
  4:{ done. }
  4:{ intros g Hg. apply list_elem_of_singleton in Hg. subst. apply list_elem_of_here. }
  all: first [done | lia].
Qed.

Lemma Done_Inv now f s s' subm :
  OncePerDur.Inv s -> OncePerDur.known subm s ->
  OncePerDur.step (OncePerDur.EvDone now f) s = Some s' ->
  OncePerDur.Inv s' /\ OncePerDur.known subm s'.
Proof.
  intros [I1 I2 I3 I4 I5 I6] Hk Hs.
  destruct s as [[d l tm p r] h rn st dr].
  unfold OncePerDur.step, OncePerDur.runner_loop, OncePerDur.is_in in Hs. simp_sys.
  case_bool_decide as Hin; [|done].
  pose proof (single_running f rn I1 Hin) as ->. subst r.
  assert (Hw0 : (h + (if match tm with Some t => Time.armed t | None => false end
                      then 1 else 0) = 0)%nat).
  { destruct (decide ((h + (if match tm with Some t => Time.armed t | None => false end
                            then 1 else 0))%nat = 1%nat)) as [E|E]; [|lia].
    destruct (I4 E) as [_ ?]. done. }
  destruct p as [g|]; cbn in Hs; rewrite decide_True in Hs by done;
    injection Hs as <-; (split; [constructor|]); simp_sys.
  all: try first [done | lia | (intros Hw'; exfalso; lia)].
  - intros x Hx. apply list_elem_of_singleton in Hx. subst. apply list_elem_of_here.
  - intros x Hx. by apply elem_of_nil in Hx.
Qed.

Lemma step_Inv e s s' subm :
  OncePerDur.Inv s -> OncePerDur.known subm s ->
  OncePerDur.is_Reset e = false ->
  (forall f, f ∈ OncePerDur.submitted [e] -> f ∉ subm) ->
  OncePerDur.step e s = Some s' ->
  OncePerDur.Inv s' /\ OncePerDur.known (OncePerDur.submitted [e] ++ subm) s'.
Proof.
  intros HI Hk Hr Hf Hs. destruct e as [now f|now|now|now|now f]; cbn [OncePerDur.submitted app].
  - eapply Do_Inv; eauto. apply Hf. cbn. apply list_elem_of_here.
  - done.
  - by eapply Fire_Inv.
  - by eapply Handle_Inv.
  - by eapply Done_Inv.
Qed.

Lemma submitted_cons e (tr : list (OncePerDur.Event F)) :
  OncePerDur.submitted (e :: tr) = OncePerDur.submitted [e] ++ OncePerDur.submitted tr.
Proof. by destruct e. Qed.

Lemma run_Inv (tr : list (OncePerDur.Event F)) : forall s s' subm,
  OncePerDur.Inv s -> OncePerDur.known subm s ->
  OncePerDur.no_Reset tr ->
  NoDup (OncePerDur.submitted tr) ->
  (forall f, f ∈ OncePerDur.submitted tr -> f ∉ subm) ->
  OncePerDur.run tr s = Some s' ->
  OncePerDur.Inv s'.
Proof.
  induction tr as [|e tr IH]; intros s s' subm HI Hk Hr Hnd Hf Hrun; cbn in Hrun.
  - by injection Hrun as <-.
  - destruct (OncePerDur.step e s) as [s1|] eqn:Hs; [|done].
    unfold OncePerDur.no_Reset in Hr. cbn in Hr. apply andb_true_iff in Hr as [Hr1 Hr2].
    apply negb_true_iff in Hr1.
    rewrite submitted_cons in Hnd, Hf. apply NoDup_app in Hnd as (_ & Hdisj & Hnd).
    destruct (step_Inv e s s1 subm HI Hk Hr1) as [HI1 Hk1]; [|done|].
    { intros f Hin. apply Hf. apply elem_of_app. by left. }
    apply (IH s1 s' (OncePerDur.submitted [e] ++ subm)); try done.
    intros f Hin Hin'. apply elem_of_app in Hin' as [Hin'|Hin'].
    + by apply (Hdisj f).
    + apply (Hf f); [|done]. apply elem_of_app. by right.
Qed.

Lemma run_app (tr1 tr2 : list (OncePerDur.Event F)) s s1 :
  OncePerDur.run tr1 s = Some s1 ->
  OncePerDur.run (tr1 ++ tr2) s = OncePerDur.run tr2 s1.
Proof.
  revert s. induction tr1 as [|e tr1 IH]; intros s Hr; cbn in *.
  - by injection Hr as <-.
  - destruct (OncePerDur.step e s); [by apply IH | done].
Qed.

(** Once dropped, always dropped. *)
Lemma step_dropped_mono e s s' g :
  OncePerDur.step e s = Some s' -> g ∈ OncePerDur.dropped s -> g ∈ OncePerDur.dropped s'.
Proof.
  intros Hs Hg. destruct e as [now f|now|now|now|now f]; cbn in Hs.
  - destruct (OncePerDur.Do now f (OncePerDur.op s)). injection Hs as <-. cbn.
    apply elem_of_app. by right.
  - injection Hs as <-. cbn. apply elem_of_app. by right.
  - destruct (OncePerDur.timer (OncePerDur.op s)); [|done].
    destruct (_ && _); [|done]. by injection Hs as <-.
  - destruct (OncePerDur.handlers s); [done|].
    destruct (OncePerDur.handleTimer now (OncePerDur.op s)). by injection Hs as <-.
  - destruct (OncePerDur.is_in f (OncePerDur.running s)); [|done].
    destruct (OncePerDur.runner_loop now (OncePerDur.op s)). by injection Hs as <-.
Qed.

Lemma run_dropped_mono (tr : list (OncePerDur.Event F)) : forall s s' g,
  OncePerDur.run tr s = Some s' -> g ∈ OncePerDur.dropped s -> g ∈ OncePerDur.dropped s'.
Proof.
  induction tr as [|e tr IH]; intros s s' g Hr Hg; cbn in Hr.
  - by injection Hr as <-.
  - destruct (OncePerDur.step e s) as [s1|] eqn:Hs; [|done].
    eapply IH; [done|]. by eapply step_dropped_mono.
Qed.

(** [Do] on a busy throttle only replaces the pending callback. *)
Lemma step_Do_busy now f s :
  OncePerDur.pending (OncePerDur.op s) <> None \/ OncePerDur.isRunning (OncePerDur.op s) = true ->
  exists s',
    OncePerDur.step (OncePerDur.EvDo now f) s = Some s' /\
    OncePerDur.op s' = OncePerDur.set_pending (Some f) (OncePerDur.op s) /\
    OncePerDur.handlers s' = OncePerDur.handlers s /\
    OncePerDur.running s' = OncePerDur.running s /\
    OncePerDur.started s' = OncePerDur.started s /\
    OncePerDur.dropped s' = OncePerDur.slot (OncePerDur.pending (OncePerDur.op s)) ++ OncePerDur.dropped s.
Proof.
  intros Hb. unfold OncePerDur.step. rewrite Do_busy.
  - eexists. split; [reflexivity|]. cbn. done.
  - destruct Hb as [Hp| ->]; [|apply orb_true_r].
    by destruct (OncePerDur.pending (OncePerDur.op s)).
Qed.


End ThrottleInvariant.

(** C2. Take any run of a throttle made of [Do] calls (each with a
    callback of its own), timer firings, timer handlers and returns of
    running callbacks. In every state it reaches: at most one callback is
    being run; the callbacks started so far are pairwise different (none
    runs twice); a callback that was dropped from the pending slot at
    any earlier point has not been started; and a [Do] that arrives
    while a callback is pending or running puts its callback into the
    pending slot, drops the one that was there and starts nothing. *)
Theorem throttle_single_flight_last_write_wins :
  forall (F : Type) (EqF : EqDecision F) (d : Z)
         (tr1 tr2 : list (OncePerDur.Event F)) (s1 s2 : OncePerDur.Sys F),
    OncePerDur.no_Reset (tr1 ++ tr2) ->
    NoDup (OncePerDur.submitted (tr1 ++ tr2)) ->
    OncePerDur.run tr1 (OncePerDur.init d) = Some s1 ->
    OncePerDur.run tr2 s1 = Some s2 ->
    (length (OncePerDur.running s2) <= 1)%nat /\
    (forall g, g ∈ OncePerDur.running s2 -> g ∈ OncePerDur.started s2) /\
    NoDup (OncePerDur.started s2) /\
    (forall g, g ∈ OncePerDur.dropped s1 -> g ∉ OncePerDur.started s2) /\
    (forall now f,
        OncePerDur.pending (OncePerDur.op s2) <> None \/
        OncePerDur.isRunning (OncePerDur.op s2) = true ->
        exists s3,
          OncePerDur.step (OncePerDur.EvDo now f) s2 = Some s3 /\
          OncePerDur.pending (OncePerDur.op s3) = Some f /\
          OncePerDur.timer (OncePerDur.op s3) = OncePerDur.timer (OncePerDur.op s2) /\
          OncePerDur.running s3 = OncePerDur.running s2 /\
          OncePerDur.started s3 = OncePerDur.started s2 /\
          OncePerDur.dropped s3
          = OncePerDur.slot (OncePerDur.pending (OncePerDur.op s2)) ++ OncePerDur.dropped s2).
Proof.
  intros F EqF d tr1 tr2 s1 s2 Hnr Hnd H1 H2.
  assert (Hrun : OncePerDur.run (tr1 ++ tr2) (OncePerDur.init d) = Some s2).
  { by rewrite (run_app tr1 tr2 _ s1). }
  assert (HI : OncePerDur.Inv s2).
  { eapply (run_Inv (tr1 ++ tr2) _ s2 []); eauto using init_Inv, init_known.
    intros f _ Hin. by apply elem_of_nil in Hin. }
  destruct HI as [I1 I2 I3 I4 I5 I6].
  apply NoDup_app in I5 as (_ & _ & I5). apply NoDup_app in I5 as (Hst & Hdisj & _).
  split; [done|]. split; [done|]. split; [done|]. split.
  - intros g Hg Hin. apply (Hdisj g Hin). exact (run_dropped_mono tr2 s1 s2 g H2 Hg).
  - intros now f Hb. destruct (step_Do_busy now f s2 Hb) as (s3 & Hs & Hop & _ & Hr & Hs' & Hd).
    exists s3. rewrite Hop. done.
Qed.

Lemma throttle_single_flight_last_write_wins_witness :
  exists s1 s2,
    OncePerDur.run [OncePerDur.EvDo 100 1%nat; OncePerDur.EvDo 101 2%nat;
                    OncePerDur.EvDo 102 3%nat] (OncePerDur.init 10) = Some s1 /\
    OncePerDur.run [OncePerDur.EvDone 103 1%nat; OncePerDur.EvDone 104 3%nat] s1 = Some s2 /\
    OncePerDur.dropped s1 = [2%nat] /\
    OncePerDur.started s2 = [3%nat; 1%nat] /\
    (length (OncePerDur.running s2) <= 1)%nat /\
    NoDup (OncePerDur.started s2) /\
    (forall g, g ∈ OncePerDur.dropped s1 -> g ∉ OncePerDur.started s2).
Proof.
  eexists _, _. split; [vm_compute; reflexivity|]. split; [vm_compute; reflexivity|].
  split; [vm_compute; reflexivity|]. split; [vm_compute; reflexivity|].
  assert (Hnd : NoDup (OncePerDur.submitted
            ([OncePerDur.EvDo 100 1%nat; OncePerDur.EvDo 101 2%nat; OncePerDur.EvDo 102 3%nat]
             ++ [OncePerDur.EvDone 103 1%nat; OncePerDur.EvDone 104 3%nat]))).
  { refine (bool_decide_unpack _ _). vm_compute. exact I. }
  pose proof (throttle_single_flight_last_write_wins nat _ 10
    [OncePerDur.EvDo 100 1%nat; OncePerDur.EvDo 101 2%nat; OncePerDur.EvDo 102 3%nat]
    [OncePerDur.EvDone 103 1%nat; OncePerDur.EvDone 104 3%nat] _ _
    eq_refl Hnd ltac:(vm_compute; reflexivity) ltac:(vm_compute; reflexivity))
    as (T1 & _ & T3 & T4 & _).
  exact (conj T1 (conj T3 T4)).
Defined.

(** [Reset] is not covered by the above, and for a reason: when it runs
    between the firing of the timer and the timer handler taking the
    mutex, a following [Do] arms the timer again while the old handler is
    still to come, and two callbacks end up running at once. *)
Lemma Reset_between_fire_and_handler :
  exists s,
    OncePerDur.run
      [OncePerDur.EvDo 100 1%nat; OncePerDur.EvDone 101 1%nat;
       OncePerDur.EvDo 102 2%nat; OncePerDur.EvFire 102;
       OncePerDur.EvReset 103;
       OncePerDur.EvDo 104 3%nat; OncePerDur.EvHandle 105;
       OncePerDur.EvDo 106 4%nat; OncePerDur.EvFire 114; OncePerDur.EvHandle 115]
      (OncePerDur.init 10) = Some s /\
    OncePerDur.running s = [4%nat; 3%nat].
Proof. eexists. split; vm_compute; reflexivity. Qed.

(** * Further properties of the code *)

(** ** Gauges: sequences of [Add] *)

Lemma set_val_id g : set_val (val g) g = g.
Proof. by destruct g. Qed.

Lemma Add_keeps_config now n g :
  OncePerDelta.delta (oncePerDelta (fst (Add now n g))) = OncePerDelta.delta (oncePerDelta g) /\
  OncePerDur.dur (oncePerDur (fst (Add now n g))) = OncePerDur.dur (oncePerDur g).
Proof.
  unfold Add. destruct (n =? 0); [done|].
  unfold OncePerDelta.Do. cbn zeta.
  destruct (_ <? _); [done|].
  unfold throttle_Do, OncePerDur.Do. cbn.
  destruct (OncePerDur.not_nil _ || _); [done|].
  destruct (Time.Before _ _); [|done].
  by destruct (OncePerDur.timer (oncePerDur g)).
Qed.

Lemma AddAll_val calls : forall g,
  in_range (val g) ->
  val (fst (AddAll calls g)) = wrap64 (val g + total (map snd calls)).
Proof.
  induction calls as [|[now n] rest IH]; intros g Hr; cbn [AddAll map total snd].
  - cbn. rewrite Z.add_0_r. by rewrite wrap64_id.
  - pose proof (Add_val now n g Hr) as Hv.
    destruct (Add now n g) as [g1 go]. cbn in Hv.
    specialize (IH g1). destruct (AddAll rest g1) as [g2 gos]. cbn in *.
    rewrite IH by (rewrite Hv; apply wrap64_range).
    rewrite Hv. unfold add64. rewrite wrap64_add_l. f_equal. lia.
Qed.

Lemma AddAll_name_raddr calls : forall g,
  name (fst (AddAll calls g)) = name g /\ raddr (fst (AddAll calls g)) = raddr g.
Proof.
  induction calls as [|[now n] rest IH]; intros g; cbn [AddAll]; [done|].
  pose proof (Add_name_raddr now n g) as [Hn Hra].
  destruct (Add now n g) as [g1 go]. specialize (IH g1).
  destruct (AddAll rest g1) as [g2 gos]. cbn in *. by rewrite <- Hn, <- Hra.
Qed.

(** X1. After any sequence of [Add] calls the gauge reads its old value
    plus the sum of the deltas, in [int64] arithmetic: exactly that sum
    whenever it is an [int64], whatever happened in between. Name and
    scope stay. *)
Theorem AddAll_sums_deltas :
  forall (calls : list (Z * Z)) (g : Gauge),
    in_range (val g) ->
    Val (fst (AddAll calls g)) = wrap64 (val g + total (map snd calls)) /\
    (in_range (val g + total (map snd calls)) ->
     Val (fst (AddAll calls g)) = val g + total (map snd calls)) /\
    name (fst (AddAll calls g)) = name g /\
    raddr (fst (AddAll calls g)) = raddr g.
Proof.
  intros calls g Hr. unfold Val. rewrite AddAll_val by done.
  split; [done|]. split; [apply wrap64_id|]. apply AddAll_name_raddr.
Qed.

Lemma AddAll_sums_deltas_witness :
  Val (fst (AddAll [(5, 100); (6, -30); (7, 0); (8, 58)] bytes_sent_gauge)) = 128.
Proof.
  refine (proj1 (proj2 (AddAll_sums_deltas [(5, 100); (6, -30); (7, 0); (8, 58)]
                          bytes_sent_gauge _)) _).
  - vm_compute. split; discriminate.
  - vm_compute. split; discriminate.
Defined.

(** X3. As long as every value the gauge takes stays less than the
    threshold away from the last published value, no [Add] of the
    sequence gets through: the delta gate and the throttle are left
    exactly as they were and no runner is started; only [val] moves. *)
Theorem AddAll_within_band_silent :
  forall (calls : list (Z * Z)) (g : Gauge),
    in_range (val g) ->
    in_range (OncePerDelta.lastVal (oncePerDelta g)) ->
    in_range (OncePerDelta.delta (oncePerDelta g)) ->
    within_band (OncePerDelta.lastVal (oncePerDelta g)) (OncePerDelta.delta (oncePerDelta g))
                (val g) (map snd calls) ->
    AddAll calls g = (set_val (val g + total (map snd calls)) g, []).
Proof.
  induction calls as [|[now n] rest IH]; intros g Hv HL Hd Hb; cbn [AddAll map total snd].
  - by rewrite Z.add_0_r, set_val_id.
  - cbn [map snd within_band] in Hb. destruct Hb as (Hx & Habs & Hb).
    assert (HA : Add now n g = (set_val (val g + n) g, None)).
    { unfold Add. destruct (Z.eqb_spec n 0) as [->|Hn].
      - by rewrite Z.add_0_r, set_val_id.
      - rewrite add64_exact by done. apply delta_Do_rejects.
        unfold gate_of, OncePerDelta.allows. cbn.
        rewrite absdiff_exact.
        + apply negb_false_iff, Z.ltb_lt. done.
        + unfold in_range, min_int64, max_int64 in *. lia. }
    rewrite HA. rewrite (IH (set_val (val g + n) g)); try done.
    cbn. f_equal. destruct g; cbn. unfold set_val; cbn. f_equal. lia.
Qed.

Lemma AddAll_within_band_silent_witness :
  AddAll [(5, 100); (6, -30); (7, 0); (8, 57)] bytes_sent_gauge
  = (set_val 127 bytes_sent_gauge, []).
Proof.
  refine (AddAll_within_band_silent [(5, 100); (6, -30); (7, 0); (8, 57)]
            bytes_sent_gauge _ _ _ _).
  - vm_compute. split; discriminate.
  - vm_compute. split; discriminate.
  - vm_compute. split; discriminate.
  - vm_compute. repeat split; discriminate.
Defined.

(** X2. [Add] on one gauge leaves the edges, the number of gauges and
    every other gauge as they are, and on its own gauge keeps the name,
    the scope, the threshold and the window. *)
Theorem AddAt_frame :
  forall (p : nat) (now n : Z) (w : World),
    edges (reg (AddAt p now n w)) = edges (reg w) /\
    length (gauges (reg (AddAt p now n w))) = length (gauges (reg w)) /\
    (forall q, q <> p -> gauges (reg (AddAt p now n w)) !! q = gauges (reg w) !! q) /\
    (forall g, gauges (reg w) !! p = Some g ->
       exists g', gauges (reg (AddAt p now n w)) !! p = Some g' /\
         name g' = name g /\ raddr g' = raddr g /\
         OncePerDelta.delta (oncePerDelta g') = OncePerDelta.delta (oncePerDelta g) /\
         OncePerDur.dur (oncePerDur g') = OncePerDur.dur (oncePerDur g)).
Proof.
  intros p now n w. unfold AddAt.
  destruct (gauges (reg w) !! p) as [g|] eqn:Hg.
  - pose proof (Add_name_raddr now n g) as [Hn Hra].
    pose proof (Add_keeps_config now n g) as [Hd Hw].
    destruct (Add now n g) as [g' go]. cbn in *.
    split; [done|]. split; [apply length_insert|]. split.
    + intros q Hq. by apply list_lookup_insert_ne.
    + intros g0 [= <-]. exists g'. split; [|done].
      apply list_lookup_insert_eq. by eapply lookup_lt_Some.
  - split; [done|]. split; [done|]. split; [done|]. intros g0 Hg0. done.
Qed.

(** ** The delta gate after [Reset] *)

(** X4. After [Reset(v)], a call [Do(v')] whose difference to [v] does
    not overflow calls the callback exactly when [|v' - v|] reaches the
    threshold, and then on a gate that holds [v']; otherwise the gate
    stays at [v]. So with a threshold above 0 the value a poll has just
    reported is not published again. *)
Theorem delta_Reset_then_Do :
  forall (v v' : Z) (opd : OncePerDelta.t) (log : list Z),
    min_int64 < v' - v <= max_int64 ->
    OncePerDelta.DoSolo v' (OncePerDelta.ResetSolo v (opd, log))
    = (if decide (OncePerDelta.delta opd <= Z.abs (v' - v))
       then (OncePerDelta.set_lastVal v' opd, v' :: log)
       else (OncePerDelta.set_lastVal v opd, log)) /\
    (v' = v -> 0 < OncePerDelta.delta opd ->
     OncePerDelta.DoSolo v' (OncePerDelta.ResetSolo v (opd, log))
     = (OncePerDelta.set_lastVal v opd, log)).
Proof.
  intros v v' opd log Hd.
  assert (E : OncePerDelta.DoSolo v' (OncePerDelta.ResetSolo v (opd, log))
              = (if decide (OncePerDelta.delta opd <= Z.abs (v' - v))
                 then (OncePerDelta.set_lastVal v' opd, v' :: log)
                 else (OncePerDelta.set_lastVal v opd, log))).
  { rewrite ResetSolo_silent. case_decide as Hc.
    - rewrite DoSolo_allowed; [done|].
      apply delta_allows_iff_exact; cbn; [done | lia].
    - unfold OncePerDelta.DoSolo. apply delta_Do_rejects.
      cbn. destruct (OncePerDelta.allows v' (OncePerDelta.set_lastVal v opd)) eqn:Ha; [|done].
      apply delta_allows_iff_exact in Ha; cbn in *; [lia | done]. }
  split; [done|]. intros -> Hpos. rewrite E.
  rewrite decide_False; [done|]. rewrite Z.sub_diag. cbn. lia.
Qed.

Lemma delta_Reset_then_Do_witness :
  OncePerDelta.DoSolo 200 (OncePerDelta.ResetSolo 100 (OncePerDelta.NewOncePerDelta 128, []))
  = (OncePerDelta.set_lastVal 100 (OncePerDelta.NewOncePerDelta 128), []).
Proof.
  refine (eq_trans (proj1 (delta_Reset_then_Do 100 200 (OncePerDelta.NewOncePerDelta 128) [] _)) _).
  - vm_compute. split; [reflexivity | discriminate].
  - reflexivity.
Defined.

(** ** The throttle: [Reset], bursts and spaced calls *)

Section ThrottleMore.
Context {F : Type}.
Implicit Types (op : OncePerDur.t F) (f : F).

Lemma Reset_Reset t t' op : OncePerDur.Reset t' (OncePerDur.Reset t op) = OncePerDur.Reset t' op.
Proof. destruct op as [d l [tm|] p r]; reflexivity. Qed.

Lemma Reset_idle t op :
  OncePerDur.pending op = None -> OncePerDur.timer_armed op = false ->
  OncePerDur.Reset t op = OncePerDur.set_last t op.
Proof.
  destruct op as [d l [[wh ar]|] p r]; cbn; intros -> Ha; [|done].
  unfold OncePerDur.timer_armed in Ha. cbn in Ha. by subst ar.
Qed.

End ThrottleMore.

(** X5. [Reset] leaves nothing pending and no timer armed and sets
    [last]; a second [Reset] only moves [last] again, and on a throttle
    with nothing pending and no timer armed [Reset] changes [last] alone.
    The next [Do], if no runner is at work, is deferred when it comes
    before [last + dur] and starts a runner otherwise; with a runner at
    work it just becomes pending. *)
Theorem throttle_Reset_then_Do :
  forall (F : Type) (t now : Z) (f : F) (op : OncePerDur.t F),
    let op' := OncePerDur.Reset t op in
    OncePerDur.pending op' = None /\
    OncePerDur.timer_armed op' = false /\
    OncePerDur.last op' = t /\
    OncePerDur.isRunning op' = OncePerDur.isRunning op /\
    OncePerDur.dur op' = OncePerDur.dur op /\
    (forall t', OncePerDur.Reset t' op' = OncePerDur.Reset t' op) /\
    (OncePerDur.pending op = None -> OncePerDur.timer_armed op = false ->
     op' = OncePerDur.set_last t op) /\
    (OncePerDur.isRunning op = false -> now < t + OncePerDur.dur op ->
     exists tm, Time.armed tm = true /\
       OncePerDur.Do now f op'
       = (OncePerDur.set_timer (Some tm) (OncePerDur.set_pending (Some f) op'), None)) /\
    (OncePerDur.isRunning op = false -> t + OncePerDur.dur op <= now ->
     OncePerDur.Do now f op'
     = (OncePerDur.set_isRunning true (OncePerDur.set_last now op'), Some f)) /\
    (OncePerDur.isRunning op = true ->
     OncePerDur.Do now f op' = (OncePerDur.set_pending (Some f) op', None)).
Proof.
  intros F t now f op op'.
  assert (Hp : OncePerDur.pending op' = None) by (by destruct op as [d l [tm|] p r]).
  assert (Hl : OncePerDur.last op' = t) by (by destruct op as [d l [tm|] p r]).
  assert (Hr : OncePerDur.isRunning op' = OncePerDur.isRunning op)
    by (by destruct op as [d l [tm|] p r]).
  assert (Hd : OncePerDur.dur op' = OncePerDur.dur op)
    by (by destruct op as [d l [tm|] p r]).
  split; [done|]. split; [by destruct op as [d l [tm|] p r]|].
  split; [done|]. split; [done|]. split; [done|].
  split; [intros t'; apply Reset_Reset|].
  split; [apply Reset_idle|].
  split; [|split].
  - intros Hnr Hlt.
    destruct (Do_deferring_pending now f op') as (tm & HD & Ha).
    { unfold OncePerDur.deferring. rewrite Hp, Hr, Hl, Hd. done. }
    exists tm. done.
  - intros Hnr Hle. unfold OncePerDur.Do. rewrite Hp, Hr, Hnr, Hl, Hd. cbn.
    unfold Time.Before, Time.Add.
    destruct (Z.ltb_spec now (t + OncePerDur.dur op)); [lia | done].
  - intros Hrun. apply Do_busy. rewrite Hr, Hrun. apply orb_true_r.
Qed.

Section ThrottleRuns.
Context {F : Type} `{EqDecision F}.
Implicit Types (s : OncePerDur.Sys F) (e : OncePerDur.Event F) (f g : F).

Ltac open_sys :=
  unfold OncePerDur.waiting, OncePerDur.timer_armed,
    OncePerDur.set_pending, OncePerDur.set_last, OncePerDur.set_timer,
    OncePerDur.set_isRunning in *;
  cbn in *.

Lemma init_documented d : documented (OncePerDur.init (F:=F) d).
Proof. constructor; cbn; first [done | lia]. Qed.

Lemma step_documented e s s' :
  documented s -> OncePerDur.is_Reset e = false ->
  OncePerDur.step e s = Some s' -> documented s'.
Proof.
  intros [I1 I2 I3 I4 I5] He Hs.
  destruct s as [[d l tm p r] h rn st dr].
  destruct e as [now f|now|now|now|now f]; [| done | | |].
  - (* Do *)
    unfold OncePerDur.step, OncePerDur.Do in Hs. open_sys.
    destruct p as [g|]; cbn in Hs.
    { injection Hs as <-. constructor; open_sys; try done.
      - intros Hw. destruct (I4 Hw). done.
      - intros _. by apply I5. }
    destruct r; cbn in Hs.
    { injection Hs as <-. constructor; open_sys; try done.
      - intros Hw. by destruct (I4 Hw).
      - intros _. by right. }
    assert (Hw0 : (h + (if match tm with Some t => Time.armed t | None => false end
                        then 1 else 0) = 0)%nat).
    { destruct (decide ((h + (if match tm with Some t => Time.armed t | None => false end
                              then 1 else 0))%nat = 1%nat)) as [E|E]; [|lia].
      by destruct (I4 E). }
    destruct rn as [|x rn]; [|done].
    destruct (Time.Before now (Time.Add l d)); cbn in Hs.
    + assert (Hh : h = 0%nat) by lia. subst h.
      destruct tm as [tm|]; injection Hs as <-; constructor; open_sys;
        first [done | lia | (intros _; split; done) | (intros _; left; lia)].
    + injection Hs as <-. constructor; open_sys;
        first [done | lia | (intros Hw; exfalso; lia) ].
  - (* the timer fires *)
    unfold OncePerDur.step in Hs. open_sys.
    destruct tm as [[wh ar]|]; [|done]. cbn in *.
    destruct ar; [|done]. cbn in *.
    destruct (wh <=? now); [|done]. injection Hs as <-.
    constructor; open_sys;
      first [done | lia | (intros _; apply I4; lia) | (intros _; left; lia)].
  - (* a timer handler takes the mutex *)
    unfold OncePerDur.step, OncePerDur.handleTimer in Hs. open_sys.
    destruct h as [|k]; [done|].
    assert (Hw : (S k + (if match tm with Some t => Time.armed t | None => false end
                         then 1 else 0) = 1)%nat) by lia.
    destruct (I4 Hw) as [Hp ->].
    destruct p as [f|]; [|done]. destruct rn as [|x rn]; [|done].
    injection Hs as <-. constructor; open_sys;
      first [done | lia | (intros Hw'; exfalso; lia)].
  - (* a callback returns *)
    unfold OncePerDur.step, OncePerDur.runner_loop, OncePerDur.is_in in Hs. open_sys.
    case_bool_decide as Hin; [|done].
    pose proof (single_running f rn I1 Hin) as ->. subst r.
    assert (Hw0 : (h + (if match tm with Some t => Time.armed t | None => false end
                        then 1 else 0) = 0)%nat).
    { destruct (decide ((h + (if match tm with Some t => Time.armed t | None => false end
                              then 1 else 0))%nat = 1%nat)) as [E|E]; [|lia].
      by destruct (I4 E). }
    destruct p as [g|]; cbn in Hs; rewrite decide_True in Hs by done;
      injection Hs as <-; constructor; open_sys;
      first [done | lia | (intros Hw'; exfalso; lia)].
Qed.

Lemma run_documented (tr : list (OncePerDur.Event F)) : forall s s',
  documented s -> OncePerDur.no_Reset tr ->
  OncePerDur.run tr s = Some s' -> documented s'.
Proof.
  induction tr as [|e tr IH]; intros s s' HI Hr Hrun; cbn in Hrun.
  - by injection Hrun as <-.
  - destruct (OncePerDur.step e s) as [s1|] eqn:Hs; [|done].
    unfold OncePerDur.no_Reset in Hr. cbn in Hr. apply andb_true_iff in Hr as [Hr1 Hr2].
    apply negb_true_iff in Hr1.
    eapply IH; [|done|done]. by eapply step_documented.
Qed.

Lemma init_attended d : attended (OncePerDur.init (F:=F) d).
Proof. split; cbn; done. Qed.

Lemma step_attended e s s' :
  attended s -> OncePerDur.step e s = Some s' -> attended s'.
Proof.
  intros [J1 J2] Hs.
  destruct s as [[d l tm p r] h rn st dr]. unfold attended.
  destruct e as [now f|now|now|now|now f].
  - unfold OncePerDur.step, OncePerDur.Do in Hs. open_sys.
    destruct p as [g|]; cbn in Hs.
    { injection Hs as <-. open_sys. split; [done|]. intros _. by apply J2. }
    destruct r; cbn in Hs.
    { injection Hs as <-. open_sys. split; [done|]. intros _. by right; right. }
    destruct (Time.Before now (Time.Add l d)); cbn in Hs.
    + destruct tm as [tm|]; injection Hs as <-; open_sys;
        (split; [done|]; intros _; by left).
    + injection Hs as <-. open_sys. split; [done|]. done.
  - injection Hs as <-. unfold OncePerDur.Reset. open_sys.
    destruct tm; cbn; split; done.
  - unfold OncePerDur.step in Hs. open_sys.
    destruct tm as [[wh ar]|]; [|done]. cbn in *.
    destruct ar; [|done]. cbn in *.
    destruct (wh <=? now); [|done]. injection Hs as <-. open_sys.
    split; [done|]. intros _. right; left. lia.
  - unfold OncePerDur.step, OncePerDur.handleTimer in Hs. open_sys.
    destruct h as [|k]; [done|].
    destruct p as [f|]; injection Hs as <-; open_sys; split; done.
  - unfold OncePerDur.step, OncePerDur.runner_loop in Hs. open_sys.
    destruct (OncePerDur.is_in f rn); [|done].
    destruct p as [g|]; injection Hs as <-; open_sys; split; done.
Qed.

Lemma run_attended (tr : list (OncePerDur.Event F)) : forall s s',
  attended s -> OncePerDur.run tr s = Some s' -> attended s'.
Proof.
  induction tr as [|e tr IH]; intros s s' HI Hrun; cbn in Hrun.
  - by injection Hrun as <-.
  - destruct (OncePerDur.step e s) as [s1|] eqn:Hs; [|done].
    eapply IH; [|done]. by eapply step_attended.
Qed.

(** While a runner is at work, a burst of [Do] calls only moves the
    pending slot along. *)
Lemma DoAll_busy (cs : list (Z * F)) : forall s tn fn,
  OncePerDur.isRunning (OncePerDur.op s) = true ->
  OncePerDur.run (DoAll (cs ++ [(tn, fn)])) s
  = Some {| OncePerDur.op := OncePerDur.set_pending (Some fn) (OncePerDur.op s);
            OncePerDur.handlers := OncePerDur.handlers s;
            OncePerDur.running := OncePerDur.running s;
            OncePerDur.started := OncePerDur.started s;
            OncePerDur.dropped :=
              rev (map snd cs) ++ OncePerDur.slot (OncePerDur.pending (OncePerDur.op s))
              ++ OncePerDur.dropped s |}.
Proof.
  induction cs as [|[t0 f0] cs IH]; intros s tn fn Hr.
  - cbn. rewrite Do_busy by (rewrite Hr; apply orb_true_r). done.
  - cbn [app DoAll map OncePerDur.run fst snd]. cbn [OncePerDur.step].
    rewrite Do_busy by (rewrite Hr; apply orb_true_r).
    fold (DoAll (cs ++ [(tn, fn)])). rewrite IH by done. cbn.
    do 2 f_equal. by rewrite <- !app_assoc.
Qed.

End ThrottleRuns.

(** X6. The comments on the fields of [OncePerDur] hold in every state
    a throttle reaches by [Do] calls, timer firings, timer handlers and
    returns of callbacks: while the timer is armed or its handler is on
    the way, a callback is pending and no runner is at work; a pending
    callback has the timer, its handler or a runner to take it; and
    [isRunning] is true exactly when a runner goroutine exists. The
    callbacks need not be different from each other. *)
Theorem throttle_field_comments_hold :
  forall (F : Type) (EqF : EqDecision F) (d : Z)
         (tr : list (OncePerDur.Event F)) (s : OncePerDur.Sys F),
    OncePerDur.no_Reset tr ->
    OncePerDur.run tr (OncePerDur.init d) = Some s ->
    (OncePerDur.timer_armed (OncePerDur.op s) = true \/ (0 < OncePerDur.handlers s)%nat ->
     OncePerDur.pending (OncePerDur.op s) <> None /\
     OncePerDur.isRunning (OncePerDur.op s) = false) /\
    (OncePerDur.pending (OncePerDur.op s) <> None ->
     OncePerDur.timer_armed (OncePerDur.op s) = true \/
     (0 < OncePerDur.handlers s)%nat \/
     OncePerDur.isRunning (OncePerDur.op s) = true) /\
    (OncePerDur.isRunning (OncePerDur.op s) = true <-> OncePerDur.running s <> []) /\
    (length (OncePerDur.running s) <= 1)%nat.
Proof.
  intros F EqF d tr s Hnr Hrun.
  destruct (run_documented tr _ s (init_documented d) Hnr Hrun) as [I1 I2 I3 I4 I5].
  unfold OncePerDur.waiting in *.
  split; [|split; [|split]].
  - intros Hw. apply I4.
    destruct (OncePerDur.timer_armed (OncePerDur.op s)); destruct Hw; try done; lia.
  - intros Hp. destruct (I5 Hp) as [Hw|Hr]; [|by right; right].
    destruct (OncePerDur.timer_armed (OncePerDur.op s)); [by left|].
    right; left. lia.
  - rewrite I2. by destruct (OncePerDur.running s).
  - done.
Qed.

Lemma throttle_field_comments_hold_witness :
  exists s,
    OncePerDur.run [OncePerDur.EvDo 100 7%nat; OncePerDur.EvDone 101 7%nat;
                    OncePerDur.EvDo 103 7%nat; OncePerDur.EvDo 104 7%nat] (OncePerDur.init 10)
    = Some s /\
    (OncePerDur.isRunning (OncePerDur.op s) = true <-> OncePerDur.running s <> []) /\
    (length (OncePerDur.running s) <= 1)%nat.
Proof.
  eexists. split; [vm_compute; reflexivity|].
  refine (proj2 (proj2 (throttle_field_comments_hold nat _ 10
    [OncePerDur.EvDo 100 7%nat; OncePerDur.EvDone 101 7%nat;
     OncePerDur.EvDo 103 7%nat; OncePerDur.EvDo 104 7%nat] _ _ _))).
  - reflexivity.
  - vm_compute. reflexivity.
Defined.

(** X7. With [Reset] calls in the run as well, a pending callback is
    never left alone: whenever the pending slot is filled, a timer is
    armed, a timer handler is on its way or a runner goroutine exists,
    each of which looks at the slot before it ends. *)
Theorem throttle_pending_is_attended :
  forall (F : Type) (EqF : EqDecision F) (d : Z)
         (tr : list (OncePerDur.Event F)) (s : OncePerDur.Sys F),
    OncePerDur.run tr (OncePerDur.init d) = Some s ->
    OncePerDur.pending (OncePerDur.op s) <> None ->
    OncePerDur.timer_armed (OncePerDur.op s) = true \/
    (0 < OncePerDur.handlers s)%nat \/
    OncePerDur.running s <> [].
Proof.
  intros F EqF d tr s Hrun Hp.
  destruct (run_attended tr _ s (init_attended d) Hrun) as [J1 J2].
  destruct (J2 Hp) as [?|[?|Hr]]; [by left | by right; left | right; right; by apply J1].
Qed.

Lemma throttle_pending_is_attended_witness :
  exists s,
    OncePerDur.run [OncePerDur.EvDo 100 1%nat; OncePerDur.EvDone 101 1%nat;
                    OncePerDur.EvDo 102 2%nat; OncePerDur.EvFire 102;
                    OncePerDur.EvReset 103; OncePerDur.EvDo 104 3%nat] (OncePerDur.init 10)
    = Some s /\
    (OncePerDur.timer_armed (OncePerDur.op s) = true \/
     (0 < OncePerDur.handlers s)%nat \/
     OncePerDur.running s <> []).
Proof.
  eexists. split; [vm_compute; reflexivity|].
  refine (throttle_pending_is_attended nat _ 10
    [OncePerDur.EvDo 100 1%nat; OncePerDur.EvDone 101 1%nat;
     OncePerDur.EvDo 102 2%nat; OncePerDur.EvFire 102;
     OncePerDur.EvReset 103; OncePerDur.EvDo 104 3%nat] _ _ _).
  - vm_compute. reflexivity.
  - vm_compute. discriminate.
Defined.

(** X8. Two calls of [Do] that are a window or more apart, the first no
    earlier than a window after the last run, each get a run of their
    own when the first callback has returned in between: both are
    started, in order, and nothing is dropped. *)
Theorem throttle_spaced_calls_both_run :
  forall (F : Type) (EqF : EqDecision F) (s : OncePerDur.Sys F)
         (now1 t now2 : Z) (f1 f2 : F),
    OncePerDur.pending (OncePerDur.op s) = None ->
    OncePerDur.isRunning (OncePerDur.op s) = false ->
    OncePerDur.running s = [] ->
    OncePerDur.last (OncePerDur.op s) + OncePerDur.dur (OncePerDur.op s) <= now1 ->
    now1 + OncePerDur.dur (OncePerDur.op s) <= now2 ->
    exists s',
      OncePerDur.run [OncePerDur.EvDo now1 f1; OncePerDur.EvDone t f1; OncePerDur.EvDo now2 f2] s
      = Some s' /\
      OncePerDur.started s' = f2 :: f1 :: OncePerDur.started s /\
      OncePerDur.running s' = [f2] /\
      OncePerDur.dropped s' = OncePerDur.dropped s /\
      OncePerDur.pending (OncePerDur.op s') = None /\
      OncePerDur.last (OncePerDur.op s') = now2 /\
      OncePerDur.timer (OncePerDur.op s') = OncePerDur.timer (OncePerDur.op s).
Proof.
  intros F EqF [[d l tm p r] h rn st dr] now1 t now2 f1 f2. cbn.
  intros -> -> -> H1 H2.
  unfold OncePerDur.Do, OncePerDur.is_in, Time.Before, Time.Add. cbn.
  destruct (Z.ltb_spec now1 (l + d)); [lia|]. cbn.
  rewrite bool_decide_eq_true_2 by apply list_elem_of_here. cbn.
  rewrite decide_True by done. cbn.
  unfold OncePerDur.Do, Time.Before, Time.Add. cbn.
  destruct (Z.ltb_spec now2 (now1 + d)); [lia|]. cbn.
  eexists. split; [reflexivity|]. done.
Qed.

Lemma throttle_spaced_calls_both_run_witness :
  exists s',
    OncePerDur.run [OncePerDur.EvDo 100 1%nat; OncePerDur.EvDone 103 1%nat;
                    OncePerDur.EvDo 110 2%nat] (OncePerDur.init 10) = Some s' /\
    OncePerDur.started s' = [2%nat; 1%nat].
Proof.
  destruct (throttle_spaced_calls_both_run nat _ (OncePerDur.init 10) 100 103 110 1%nat 2%nat)
    as (s' & Hrun & Hst & _).
  - reflexivity.
  - reflexivity.
  - reflexivity.
  - vm_compute. discriminate.
  - vm_compute. discriminate.
  - exists s'. split; [exact Hrun | exact Hst].
Defined.

(** X9. A burst of [Do] calls that arrives while a callback is being
    run is coalesced: when that callback returns, its runner goes on
    with the callback of the last call and with no other; the callbacks
    of the earlier calls of the burst, and whatever was pending before
    it, are dropped. *)
Theorem throttle_burst_runs_last_only :
  forall (F : Type) (EqF : EqDecision F) (s : OncePerDur.Sys F)
         (f0 : F) (cs : list (Z * F)) (tn t : Z) (fn : F),
    OncePerDur.running s = [f0] ->
    OncePerDur.isRunning (OncePerDur.op s) = true ->
    exists s',
      OncePerDur.run (DoAll (cs ++ [(tn, fn)]) ++ [OncePerDur.EvDone t f0]) s = Some s' /\
      OncePerDur.running s' = [fn] /\
      OncePerDur.started s' = fn :: OncePerDur.started s /\
      OncePerDur.dropped s'
      = rev (map snd cs) ++ OncePerDur.slot (OncePerDur.pending (OncePerDur.op s))
        ++ OncePerDur.dropped s /\
      OncePerDur.pending (OncePerDur.op s') = None /\
      OncePerDur.isRunning (OncePerDur.op s') = true /\
      OncePerDur.last (OncePerDur.op s') = t.
Proof.
  intros F EqF s f0 cs tn t fn Hrn Hr.
  rewrite (run_app _ _ s _ (DoAll_busy cs s tn fn Hr)).
  cbn. unfold OncePerDur.is_in. rewrite Hrn.
  rewrite bool_decide_eq_true_2 by apply list_elem_of_here. cbn.
  rewrite decide_True by done.
  eexists. split; [reflexivity|]. cbn. done.
Qed.

Lemma throttle_burst_runs_last_only_witness :
  exists s1 s',
    OncePerDur.run [OncePerDur.EvDo 100 0%nat] (OncePerDur.init 10) = Some s1 /\
    OncePerDur.run (DoAll ([(101, 1%nat); (102, 2%nat)] ++ [(103, 3%nat)])
                    ++ [OncePerDur.EvDone 104 0%nat]) s1 = Some s' /\
    OncePerDur.running s' = [3%nat] /\
    OncePerDur.started s' = 3%nat :: OncePerDur.started s1.
Proof.
  eexists. 
  assert (H1 : OncePerDur.run [OncePerDur.EvDo 100 0%nat] (OncePerDur.init 10)
               = Some {| OncePerDur.op := {| OncePerDur.dur := 10; OncePerDur.last := 100;
                                             OncePerDur.timer := None;
                                             OncePerDur.pending := None;
                                             OncePerDur.isRunning := true |};
                         OncePerDur.handlers := 0; OncePerDur.running := [0%nat];
                         OncePerDur.started := [0%nat]; OncePerDur.dropped := [] |})
    by (vm_compute; reflexivity).
  destruct (throttle_burst_runs_last_only nat _ _ 0%nat [(101, 1%nat); (102, 2%nat)] 103 104 3%nat
              (eq_refl : OncePerDur.running
                 {| OncePerDur.op := {| OncePerDur.dur := 10; OncePerDur.last := 100;
                                        OncePerDur.timer := None;
                                        OncePerDur.pending := None;
                                        OncePerDur.isRunning := true |};
                    OncePerDur.handlers := 0; OncePerDur.running := [0%nat];
                    OncePerDur.started := [0%nat]; OncePerDur.dropped := [] |} = [0%nat])
              eq_refl)
    as (s' & Hrun & Hrn & Hst & _).
  exists s'. split; [exact H1|]. split; [exact Hrun|]. split; [exact Hrn | exact Hst].
Defined.

(** ** The registry: edges, publications and polls *)

(** X10. [detach] removes an edge only while it is the one registered:
    right after its own [Attach] it frees the scope; once a newer edge
    has been attached for the scope, the late [detach] of the older one
    changes nothing and the newer edge stays; and no [detach] (or
    [Attach]) touches another scope or the gauges. *)
Theorem detach_only_the_registered_edge :
  forall (m : Metrics) (scope : string) (e1 e2 : Edge),
    edges (detach e1 scope (Attach e1 scope m)) !! scope = None /\
    (e1 <> e2 ->
     detach e1 scope (Attach e2 scope (Attach e1 scope m)) = Attach e2 scope (Attach e1 scope m) /\
     edges (detach e1 scope (Attach e2 scope (Attach e1 scope m))) !! scope = Some e2) /\
    (forall other, other <> scope ->
       edges (detach e1 scope m) !! other = edges m !! other /\
       edges (Attach e1 scope m) !! other = edges m !! other) /\
    gauges (detach e1 scope m) = gauges m /\
    gauges (Attach e1 scope m) = gauges m.
Proof.
  intros m scope e1 e2. split; [|split; [|split; [|split]]].
  - unfold detach, Attach. cbn. rewrite lookup_insert_eq.
    rewrite decide_True by done. cbn. apply lookup_delete_eq.
  - intros Hne. unfold detach, Attach. cbn. rewrite !lookup_insert_eq.
    rewrite decide_False by done. cbn. rewrite lookup_insert_eq. done.
  - intros other Hne. split.
    + unfold detach. destruct (edges m !! scope) as [e|]; [|done].
      case_decide; [|done]. cbn. by apply lookup_delete_ne.
    + unfold Attach. cbn. by apply lookup_insert_ne.
  - unfold detach. destruct (edges m !! scope) as [e|]; [|done]. by case_decide.
  - done.
Qed.

(** X11. The publication of a gauge with a scope goes to the edge
    registered for that scope and to no other, and is dropped when there
    is none; the publication of a global gauge goes to the edge of every
    registered scope, once per scope, always with the same text
    [name=value] on the metrics subject. *)
Theorem Gauge_pub_routing :
  forall (g : Gauge) (v : Z) (m : Metrics),
    (raddr g <> "" ->
     Gauge_pub g v m
     = Ok (match edges m !! raddr g with
           | Some e => [MkPub e metricsSubject (StringWithVal g v)]
           | None => []
           end)) /\
    (raddr g = "" ->
     exists l,
       Gauge_pub g v m = Ok l /\
       length l = size (edges m) /\
       (forall scope e, edges m !! scope = Some e ->
                        MkPub e metricsSubject (StringWithVal g v) ∈ l) /\
       (forall p, p ∈ l ->
          pub_subject p = metricsSubject /\ pub_payload p = StringWithVal g v /\
          exists scope, edges m !! scope = Some (pub_edge p))).
Proof.
  intros g v m. unfold Gauge_pub, pub. split.
  - intros Hs. rewrite decide_True by done. by destruct (edges m !! raddr g).
  - intros ->. rewrite decide_False by (intros H; by apply H).
    eexists. split; [reflexivity|]. split; [|split].
    + rewrite length_map. apply length_map_to_list.
    + intros scope e He. apply elem_of_map_to_list in He.
      apply list_elem_of_In, in_map_iff. exists (scope, e). split; [done|].
      by apply list_elem_of_In.
    + intros p Hp. apply list_elem_of_In, in_map_iff in Hp as ([scope e] & <- & Hin).
      cbn. split; [done|]. split; [done|]. exists scope.
      by apply elem_of_map_to_list, list_elem_of_In.
Qed.

(** X12. The answer to a poll from an attached scope leaves the edges,
    the number of gauges and every gauge's name, value, scope, threshold
    and window as they were; afterwards no gauge has a callback pending
    or a timer armed, every throttle's [last] is the time of its reset,
    and every delta gate holds the gauge's current value. *)
Theorem pubMetrics_leaves_gates_reset :
  forall (scope : string) (clock : nat -> Z) (m m' : Metrics) (p : Publication),
    is_Some (edges m !! scope) ->
    pubMetrics scope clock m = Ok (m', p) ->
    edges m' = edges m /\
    length (gauges m') = length (gauges m) /\
    Some (pub_edge p) = edges m !! scope /\
    (forall i g, gauges m !! i = Some g ->
       exists g', gauges m' !! i = Some g' /\
         name g' = name g /\ val g' = val g /\ raddr g' = raddr g /\
         OncePerDelta.delta (oncePerDelta g') = OncePerDelta.delta (oncePerDelta g) /\
         OncePerDur.dur (oncePerDur g') = OncePerDur.dur (oncePerDur g) /\
         OncePerDur.isRunning (oncePerDur g') = OncePerDur.isRunning (oncePerDur g) /\
         OncePerDur.pending (oncePerDur g') = None /\
         OncePerDur.timer_armed (oncePerDur g') = false /\
         OncePerDur.last (oncePerDur g') = clock i /\
         OncePerDelta.lastVal (oncePerDelta g') = val g).
Proof.
  intros scope clock m m' p [e He] Hp.
  rewrite (pubMetrics_attached _ _ _ _ He) in Hp. injection Hp as <- <-. cbn.
  split; [done|]. split; [apply length_imap|]. split; [done|].
  intros i g Hg. rewrite list_lookup_imap, Hg. cbn. eexists. split; [reflexivity|].
  unfold reset_gates, OncePerDelta.Reset, Val. cbn.
  destruct (oncePerDur g) as [d l [tm|] pd r]; cbn; done.
Qed.

Lemma pubMetrics_leaves_gates_reset_witness :
  exists m' p,
    pubMetrics "A" (fun _ => 6000000000) (reg poll_world) = Ok (m', p) /\
    edges m' = edges (reg poll_world) /\
    length (gauges m') = length (gauges (reg poll_world)).
Proof.
  eexists _, _. split; [vm_compute; reflexivity|].
  match goal with |- edges ?m' = _ /\ _ =>
    pose proof (pubMetrics_leaves_gates_reset "A" (fun _ => 6000000000) (reg poll_world) m'
                  (MkPub 1%nat metricsSubject (dump "A" (gauges (reg poll_world)))))
      as T
  end.
  destruct T as (T1 & T2 & _).
  - vm_compute. eexists. reflexivity.
  - vm_compute. reflexivity.
  - exact (conj T1 T2).
Defined.

Lemma dump_snoc scope gs g :
  dump scope (gs ++ [g]) = dump scope gs +:+ (if visible scope g then line g else "").
Proof.
  induction gs as [|x gs IH]; cbn [app dump].
  - destruct (visible scope g); [|done]. by rewrite string_app_nil_r.
  - rewrite IH. destruct (visible scope x); [|done]. by rewrite string_app_assoc.
Qed.

(** X13. [NewGauge] appends: the pointer it returns is the old number of
    gauges and leads to a gauge of value 0 with fresh gates; every
    gauge registered before stays where it was, unchanged, and so do the
    edges. *)
Theorem NewGauge_appends :
  forall (nm : string) (d dl : Z) (sc : string) (m : Metrics),
    let m' := fst (NewGauge nm d dl sc m) in
    let p := snd (NewGauge nm d dl sc m) in
    p = length (gauges m) /\
    length (gauges m') = S (length (gauges m)) /\
    edges m' = edges m /\
    gauges m' !! p
    = Some {| name := nm; val := 0;
              oncePerDur := OncePerDur.NewOncePerDur d;
              oncePerDelta := OncePerDelta.NewOncePerDelta dl; raddr := sc |} /\
    (forall q g, gauges m !! q = Some g -> gauges m' !! q = Some g) /\
    (forall q, q <> p -> gauges m' !! q = gauges m !! q).
Proof.
  intros nm d dl sc m. cbn.
  split; [done|]. split; [rewrite length_app; cbn; lia|]. split; [done|].
  split; [by rewrite list_lookup_middle|]. split.
  - intros q g Hg. by apply lookup_app_l_Some.
  - intros q Hq. destruct (decide (q < length (gauges m))%nat) as [Hlt|Hge].
    + by apply lookup_app_l.
    + rewrite (lookup_ge_None_2 (gauges m)) by lia.
      apply lookup_ge_None_2. rewrite length_app. cbn. lia.
Qed.

(** X14. A gauge registered after an edge was attached is in the polls
    that follow: the payload is the one from before, with the line
    [name=0] of the new gauge at its end when the gauge is global or of
    the poller's scope, and unchanged otherwise. *)
Theorem pubMetrics_after_NewGauge :
  forall (scope : string) (clock : nat -> Z) (m : Metrics)
         (nm : string) (d dl : Z) (sc : string),
    is_Some (edges m !! scope) ->
    exists m1 p1 m2 p2,
      pubMetrics scope clock m = Ok (m1, p1) /\
      pubMetrics scope clock (fst (NewGauge nm d dl sc m)) = Ok (m2, p2) /\
      pub_edge p2 = pub_edge p1 /\
      pub_payload p2
      = pub_payload p1 +:+
        (if bool_decide (sc = "") || bool_decide (sc = scope)
         then (nm +:+ "=0") +:+ newline else "").
Proof.
  intros scope clock m nm d dl sc [e He].
  rewrite (pubMetrics_attached _ _ _ _ He).
  rewrite (pubMetrics_attached scope clock (fst (NewGauge nm d dl sc m)) e) by done.
  do 4 eexists. split; [reflexivity|]. split; [reflexivity|]. cbn.
  split; [done|]. by rewrite dump_snoc.
Qed.

Lemma pubMetrics_after_NewGauge_witness :
  exists m1 p1 m2 p2,
    pubMetrics "A" (fun _ => 6000000000) (reg poll_world) = Ok (m1, p1) /\
    pubMetrics "A" (fun _ => 6000000000)
      (fst (NewGauge "G3" 1000000000 0 "A" (reg poll_world))) = Ok (m2, p2) /\
    pub_edge p2 = pub_edge p1 /\
    pub_payload p2
    = pub_payload p1 +:+
      (if bool_decide ("A" = "") || bool_decide ("A" = "A")
       then ("G3" +:+ "=0") +:+ newline else "").
Proof.
  refine (pubMetrics_after_NewGauge "A" (fun _ => 6000000000) (reg poll_world)
            "G3" 1000000000 0 "A" _).
  vm_compute. eexists. reflexivity.
Defined.

(** ** Text of a publication *)

Lemma string_app_inv_head (a b c : string) : a +:+ b = a +:+ c -> b = c.
Proof.
  induction a as [|x a IH]; [done|].
  change (String x (a +:+ b) = String x (a +:+ c) -> b = c).
  intros [= H]. by apply IH.
Qed.

(** X15. The text [name=value] of a gauge tells the value: two values
    with the same text are the same value. *)
Theorem StringWithVal_tells_value :
  forall (g : Gauge) (v1 v2 : Z),
    StringWithVal g v1 = StringWithVal g v2 -> v1 = v2.
Proof.
  intros g v1 v2 H. unfold StringWithVal in H.
  apply string_app_inv_head in H. apply (string_app_inv_head "=") in H.
  by apply (inj pretty) in H.
Qed.

Lemma StringWithVal_tells_value_witness : 0 + 128 = 128.
Proof. exact (StringWithVal_tells_value bytes_sent_gauge (0 + 128) 128 eq_refl). Defined.

(** ** Connections and the listener *)

Lemma AddAt_zero p now w : AddAt p now 0 w = w.
Proof.
  destruct w as [[es gs] gr]. unfold AddAt. cbn.
  destruct (gs !! p) as [g|] eqn:Hg; [|done].
  cbn. unfold set_gauges. cbn. by rewrite list_insert_id.
Qed.

(** X16. A [Write] or [Read] on a wrapped connection that transfers no
    byte (an error, or the end of the stream) hands back what the
    connection returned and leaves every gauge as it was, gates
    included: nothing is published for it. *)
Theorem transfer_of_nothing_counts_nothing :
  forall (C : Type) (NC : NetConn C) (mc : metricsConn C) (c : C)
         (b : list Byte.byte) (t1 t2 : Z) (w : World),
    Conn mc = Some c ->
    (io_n (snd (conn_Write b c)) = 0 ->
     Write b t1 t2 mc w
     = Ok (set_Conn (Some (fst (conn_Write b c))) mc, w, snd (conn_Write b c))) /\
    (io_n (snd (snd (conn_Read b c))) = 0 ->
     Read b t1 t2 mc w
     = Ok (set_Conn (Some (fst (conn_Read b c))) mc, w, snd (conn_Read b c))).
Proof.
  intros C NC mc c b t1 t2 w Hc. split; intros Hn.
  - unfold Write. rewrite Hc. destruct (conn_Write b c) as [c' r]. cbn in *.
    rewrite Hn. by rewrite !AddAt_zero.
  - unfold Read. rewrite Hc. destruct (conn_Read b c) as [c' [b' r]]. cbn in *.
    rewrite Hn. by rewrite !AddAt_zero.
Qed.

Lemma transfer_of_nothing_counts_nothing_witness :
  Read (replicate 16 Byte.x00) 7 8 pipe_metricsConn four_gauges_world
  = Ok (pipe_metricsConn, four_gauges_world, (replicate 16 Byte.x00, MkIO 0 None)).
Proof.
  refine (proj2 (transfer_of_nothing_counts_nothing PipeConn _ pipe_metricsConn
                   (MkPipe "10.0.0.7:4242" []) (replicate 16 Byte.x00) 7 8
                   four_gauges_world _) _).
  - reflexivity.
  - reflexivity.
Defined.

(** X17. When the listener hands out a connection, the wrapped [Accept]
    of [main] passes the error value through and wraps the connection
    with the listener's two gauges and two gauges made for it: new ones
    of value 0 at the end of the registry, scoped to the remote address
    of the connection. The gauges registered before are untouched, and
    the four gauges of the connection are pairwise different whenever
    the listener's two are different registered gauges. *)
Theorem Accept_wraps_with_fresh_gauges :
  forall (C L : Type) (NC : NetConn C) (NL : NetListener L C)
         (mln : metricsListener L) (w : World) (l' : L) (c : C) (err : option Error),
    connGauges mln = main_connGauges ->
    ln_Accept (Listener mln) = (l', (Some c, err)) ->
    exists mc w',
      Accept mln w = Ok (set_Listener l' mln, w', (mc, err)) /\
      Conn mc = Some c /\
      sentTotal mc = ln_sentTotal mln /\ receivedTotal mc = ln_receivedTotal mln /\
      sentThis mc = length (gauges (reg w)) /\
      receivedThis mc = S (length (gauges (reg w))) /\
      length (gauges (reg w')) = S (S (length (gauges (reg w)))) /\
      edges (reg w') = edges (reg w) /\
      (forall q g, gauges (reg w) !! q = Some g -> gauges (reg w') !! q = Some g) /\
      gauges (reg w') !! sentThis mc
      = Some {| name := "bytes_sent{conn=this}"; val := 0;
                oncePerDur := OncePerDur.NewOncePerDur 1000000000;
                oncePerDelta := OncePerDelta.NewOncePerDelta 128;
                raddr := RemoteAddr c |} /\
      gauges (reg w') !! receivedThis mc
      = Some {| name := "bytes_received{conn=this}"; val := 0;
                oncePerDur := OncePerDur.NewOncePerDur 1000000000;
                oncePerDelta := OncePerDelta.NewOncePerDelta 0;
                raddr := RemoteAddr c |} /\
      ((ln_sentTotal mln < length (gauges (reg w)))%nat ->
       (ln_receivedTotal mln < length (gauges (reg w)))%nat ->
       ln_sentTotal mln <> ln_receivedTotal mln ->
       NoDup [sentTotal mc; sentThis mc; receivedTotal mc; receivedThis mc]).
Proof.
  intros C L NC NL mln w l' c err Hcg Ha.
  unfold Accept. rewrite Ha, Hcg. unfold main_connGauges, NewGauge. cbn.
  do 2 eexists. split; [reflexivity|]. cbn.
  set (n := length (gauges (reg w))).
  do 4 (split; [done|]).
  split; [rewrite length_app; cbn; lia|].
  split; [rewrite !length_app; cbn; lia|].
  split; [done|].
  split; [intros q g Hg; by apply lookup_app_l_Some, lookup_app_l_Some|].
  split.
  { rewrite lookup_app_l by (rewrite length_app; cbn; lia).
    by rewrite list_lookup_middle. }
  split.
  { by rewrite list_lookup_middle. }
  intros H1 H2 Hne. rewrite length_app. cbn [length]. fold n.
  repeat (apply NoDup_cons; split); [| | | |apply NoDup_nil_2];
    rewrite ?elem_of_cons, ?elem_of_nil; lia.
Qed.

Lemma Accept_wraps_with_fresh_gauges_witness :
  exists mc w',
    Accept (SentReceivedMiddleware 0 1 main_connGauges
              ([(Some (MkPipe "10.0.0.9:5151" []), None)] : ScriptListener)) four_gauges_world
    = Ok (set_Listener []
            (SentReceivedMiddleware 0 1 main_connGauges
               ([(Some (MkPipe "10.0.0.9:5151" []), None)] : ScriptListener)),
          w', (mc, None)) /\
    Conn mc = Some (MkPipe "10.0.0.9:5151" []) /\
    sentThis mc = 4%nat /\ receivedThis mc = 5%nat.
Proof.
  destruct (Accept_wraps_with_fresh_gauges PipeConn ScriptListener
              PipeConn_NetConn ScriptListener_NetListener
              (SentReceivedMiddleware 0 1 main_connGauges
                 ([(Some (MkPipe "10.0.0.9:5151" []), None)] : ScriptListener))
              four_gauges_world [] (MkPipe "10.0.0.9:5151" []) None eq_refl eq_refl)
    as (mc & w' & HA & Hc & _ & _ & Hs & Hr & _).
  exists mc, w'. split; [exact HA|]. split; [exact Hc|]. split; [exact Hs | exact Hr].
Defined.

(** ** Gauges without a threshold *)

Lemma sub64_add64 v n : in_range v -> in_range n -> sub64 (add64 v n) v = n.
Proof.
  intros Hv Hn. unfold sub64, add64.
  replace (wrap64 (v + n) - v) with (wrap64 (v + n) + - v) by lia.
  rewrite wrap64_add_l. replace (v + n + - v) with n by lia. by apply wrap64_id.
Qed.

(** X18. On a gauge of threshold 0 whose delta gate holds its value,
    every [Add] of a non-zero [n] other than the least [int64] passes the
    gate and reaches the throttle: afterwards the gate holds the new
    value again, and the new value is what the throttle has pending or
    what the runner it has just started publishes. *)
Theorem Add_without_threshold_reaches_throttle :
  forall (now n : Z) (g : Gauge),
    OncePerDelta.delta (oncePerDelta g) = 0 ->
    OncePerDelta.lastVal (oncePerDelta g) = val g ->
    in_range (val g) ->
    n <> 0 -> min_int64 < n <= max_int64 ->
    let g' := fst (Add now n g) in
    val g' = add64 (val g) n /\
    OncePerDelta.lastVal (oncePerDelta g') = val g' /\
    OncePerDelta.delta (oncePerDelta g') = 0 /\
    (snd (Add now n g) = Some (val g') \/
     (snd (Add now n g) = None /\ OncePerDur.pending (oncePerDur g') = Some (val g'))).
Proof.
  intros now n g Hd HL Hv Hn Hr g'. subst g'.
  assert (Ha : OncePerDelta.allows (add64 (val g) n) (oncePerDelta g) = true).
  { unfold OncePerDelta.allows, OncePerDelta.absdiff. rewrite HL, Hd.
    rewrite sub64_add64 by (unfold in_range in *; lia).
    apply negb_true_iff, Z.ltb_ge.
    destruct (Z.ltb_spec n 0); [|lia].
    unfold neg64. rewrite wrap64_id; unfold in_range, min_int64, max_int64 in *; lia. }
  unfold Add. destruct (Z.eqb_spec n 0) as [|_]; [done|].
  rewrite delta_Do_allows by done.
  unfold throttle_Do, gate_of, with_gate. cbn.
  unfold OncePerDur.Do.
  destruct (OncePerDur.not_nil (OncePerDur.pending (oncePerDur g)) ||
            OncePerDur.isRunning (oncePerDur g)); cbn.
  { repeat split; try done. by right. }
  destruct (Time.Before now _); cbn.
  - destruct (OncePerDur.timer (oncePerDur g)); cbn; repeat split; try done; by right.
  - repeat split; try done. by left.
Qed.

Lemma Add_without_threshold_reaches_throttle_witness :
  snd (Add 5 1 {| name := "requests_in_flight"; val := 0;
                  oncePerDur := OncePerDur.NewOncePerDur 0;
                  oncePerDelta := OncePerDelta.NewOncePerDelta 0; raddr := "" |}) = Some 1.
Proof.
  destruct (Add_without_threshold_reaches_throttle 5 1
              {| name := "requests_in_flight"; val := 0;
                 oncePerDur := OncePerDur.NewOncePerDur 0;
                 oncePerDelta := OncePerDelta.NewOncePerDelta 0; raddr := "" |})
    as (_ & _ & _ & [H|[H _]]).
  - reflexivity.
  - reflexivity.
  - vm_compute. split; discriminate.
  - discriminate.
  - vm_compute. split; [reflexivity | discriminate].
  - exact H.
  - exfalso. vm_compute in H. discriminate.
Defined.

(** ** The throttle: the timer path and its cancellation *)

(** X19. A [Do] that is deferred on an idle throttle is run by the timer
    handler: once the timer has fired and its handler has taken the
    mutex, the callback is being run, [last] is the time of the handler
    and nothing is pending. The timer is due at the instant of the call
    when it is the throttle's first timer, and one whole window after
    the call when an earlier timer is reused. *)
Theorem throttle_deferred_call_runs_from_timer :
  forall (F : Type) (EqF : EqDecision F) (s : OncePerDur.Sys F)
         (now t1 t2 : Z) (f : F),
    OncePerDur.deferring now (OncePerDur.op s) ->
    OncePerDur.running s = [] ->
    OncePerDur.handlers s = 0%nat ->
    match OncePerDur.timer (OncePerDur.op s) with
    | None => now <= t1
    | Some _ => Time.when_after now (OncePerDur.dur (OncePerDur.op s)) <= t1
    end ->
    exists s',
      OncePerDur.run [OncePerDur.EvDo now f; OncePerDur.EvFire t1; OncePerDur.EvHandle t2] s
      = Some s' /\
      OncePerDur.running s' = [f] /\
      OncePerDur.started s' = f :: OncePerDur.started s /\
      OncePerDur.dropped s' = OncePerDur.dropped s /\
      OncePerDur.pending (OncePerDur.op s') = None /\
      OncePerDur.isRunning (OncePerDur.op s') = true /\
      OncePerDur.last (OncePerDur.op s') = t2 /\
      OncePerDur.timer_armed (OncePerDur.op s') = false /\
      OncePerDur.handlers s' = 0%nat.
Proof.
  intros F EqF [[d l tm p r] h rn st dr] now t1 t2 f (Hp & Hr & Hlt). cbn in *.
  intros -> -> Ht1. subst p r.
  unfold OncePerDur.Do, Time.Before, Time.Add. cbn.
  destruct (Z.ltb_spec now (l + d)); [|lia]. cbn.
  destruct tm as [tm|]; cbn.
  - destruct (Z.leb_spec (Time.when_after now d) t1); [|lia]. cbn.
    eexists. split; [reflexivity|]. done.
  - assert (Hw : Time.when_after now (Time.Sub now (l + d)) = now).
    { unfold Time.when_after, Time.Sub, saturate64, min_int64, max_int64.
      destruct (Z.leb_spec (Z.max (- 2 ^ 63) (Z.min (2 ^ 63 - 1) (now - (l + d)))) 0); lia. }
    rewrite Hw. destruct (Z.leb_spec now t1); [|lia]. cbn.
    eexists. split; [reflexivity|]. done.
Qed.

Lemma throttle_deferred_call_runs_from_timer_witness :
  exists s s',
    OncePerDur.run [OncePerDur.EvDo 100 1%nat; OncePerDur.EvDone 101 1%nat] (OncePerDur.init 10)
    = Some s /\
    OncePerDur.run [OncePerDur.EvDo 103 2%nat; OncePerDur.EvFire 103; OncePerDur.EvHandle 103] s
    = Some s' /\
    OncePerDur.running s' = [2%nat].
Proof.
  assert (H1 : OncePerDur.run [OncePerDur.EvDo 100 1%nat; OncePerDur.EvDone 101 1%nat]
                 (OncePerDur.init 10)
               = Some {| OncePerDur.op := {| OncePerDur.dur := 10; OncePerDur.last := 100;
                                             OncePerDur.timer := None;
                                             OncePerDur.pending := None;
                                             OncePerDur.isRunning := false |};
                         OncePerDur.handlers := 0; OncePerDur.running := [];
                         OncePerDur.started := [1%nat]; OncePerDur.dropped := [] |})
    by (vm_compute; reflexivity).
  destruct (throttle_deferred_call_runs_from_timer nat _
              {| OncePerDur.op := {| OncePerDur.dur := 10; OncePerDur.last := 100;
                                     OncePerDur.timer := None;
                                     OncePerDur.pending := None;
                                     OncePerDur.isRunning := false |};
                 OncePerDur.handlers := 0; OncePerDur.running := [];
                 OncePerDur.started := [1%nat]; OncePerDur.dropped := [] |}
              103 103 103 2%nat)
    as (s' & Hrun & Hrn & _).
  - vm_compute. repeat split.
  - reflexivity.
  - reflexivity.
  - vm_compute. discriminate.
  - eexists _, s'. split; [exact H1|]. split; [exact Hrun | exact Hrn].
Defined.

